(** * todo-app: the task state engine of [src/App.tsx]

    A shallow embedding of the React component [App]: the task list and
    its three mutators ([addTask], [toggleTaskDone], [deleteTask]), the
    transient message with its three-second timer ([showMessage]), the
    date classifier ([isSameDay], [isInThisWeek] and the four filtered
    views) and the [localStorage] synchronisation (the [useState]
    initialiser and the [useEffect] that writes the list back).

    The parts of the JavaScript runtime the component calls ([Date],
    [JSON], [localStorage], [setTimeout]) are modelled after ECMAScript
    and the HTML standard, as far as the component uses them.

    Conventions.
    - A JavaScript string is a [string]: the UTF-8 bytes of its text.
    - A JavaScript number that is an integer or [NaN] is an [option Z]
      ([None] is [NaN]); task ids, which come from [Date.now()], are [Z].
    - Every event handler runs on the state of the render that created
      it and yields the state of the next render: React flushes a click
      or a change before the next event is dispatched. *)

From Stdlib Require Import ZArith List String Ascii Bool Lia.
From Stdlib Require Import DecimalString QArith.
From Stdlib Require DecimalFacts DecimalPos DecimalN DecimalZ.
From Stdlib Require Import Permutation.
Import ListNotations.
Local Open Scope string_scope.
Local Open Scope Z_scope.

(* ================================================================== *)
(** * The data model *)

(** [type Task = { id: number; title: string; dueDate: string;
    isDone: boolean }] *)
Module Task.
Record t : Type := mk {
  id : Z;            (* 一意のID *)
  title : string;    (* タスク名 *)
  dueDate : string;  (* 締切日 (yyyy-MM-dd) *)
  isDone : bool      (* 完了フラグ *)
}.

Definition eq_dec (a b : t) : {a = b} + {a <> b}.
Proof.
  decide equality; [ apply bool_dec | apply string_dec | apply string_dec | apply Z.eq_dec ].
Defined.
End Task.

(* ================================================================== *)
(** * Timers: [setTimeout] and [clearTimeout] on a virtual clock

    The only callback the component ever schedules is
    [() => setMessage('')].  A handle is a positive integer, as the HTML
    standard requires, hence always truthy. *)

Inductive Callback : Type :=
| ClearMessage.   (* () => setMessage('') *)

Record Timer : Type := mkTimer {
  handle : positive;
  due : Z;               (* virtual time, in ms, at which it fires *)
  callback : Callback
}.

(* ================================================================== *)
(** * The state of the component between two events *)

Record State : Type := mkState {
  tasks : list Task.t;                    (* useState<Task[]> *)
  title : string;                         (* 入力タスク名 *)
  dueDate : string;                       (* 入力日付 *)
  message : string;                       (* メッセージ表示 *)
  messageTimeoutRef : option positive;    (* useRef(null): null or a handle *)
  clock : Z;                              (* the timers' clock, ms *)
  nextHandle : positive;                  (* the next handle setTimeout returns *)
  timers : list Timer                     (* scheduled and not yet fired or cleared *)
}.

Definition setTasks (v : list Task.t) (s : State) : State :=
  mkState v (title s) (dueDate s) (message s) (messageTimeoutRef s)
          (clock s) (nextHandle s) (timers s).

Definition setTitle (v : string) (s : State) : State :=
  mkState (tasks s) v (dueDate s) (message s) (messageTimeoutRef s)
          (clock s) (nextHandle s) (timers s).

Definition setDueDate (v : string) (s : State) : State :=
  mkState (tasks s) (title s) v (message s) (messageTimeoutRef s)
          (clock s) (nextHandle s) (timers s).

Definition setMessage (v : string) (s : State) : State :=
  mkState (tasks s) (title s) (dueDate s) v (messageTimeoutRef s)
          (clock s) (nextHandle s) (timers s).

Definition setMessageTimeoutRef (v : option positive) (s : State) : State :=
  mkState (tasks s) (title s) (dueDate s) (message s) v
          (clock s) (nextHandle s) (timers s).

(** [clearTimeout(h)]: the timer with that handle, if still scheduled, is
    dropped; an unknown or stale handle is ignored. *)
Definition clearTimeout (h : positive) (s : State) : State :=
  mkState (tasks s) (title s) (dueDate s) (message s) (messageTimeoutRef s)
          (clock s) (nextHandle s)
          (filter (fun tm => negb (Pos.eqb (handle tm) h)) (timers s)).

(** [setTimeout(cb, delay)]: returns the fresh handle and the state with
    the timer scheduled [delay] ms from now. *)
Definition setTimeout (cb : Callback) (delay : Z) (s : State) : positive * State :=
  (nextHandle s,
   mkState (tasks s) (title s) (dueDate s) (message s) (messageTimeoutRef s)
           (clock s) (Pos.succ (nextHandle s))
           (timers s ++ [mkTimer (nextHandle s) (clock s + delay) cb])).

Definition runCallback (cb : Callback) (s : State) : State :=
  match cb with
  | ClearMessage => setMessage "" s
  end.

(** The event loop runs idle for [dt] ms: every timer that has come due
    by then fires and is gone afterwards.  They fire in the order they
    were scheduled; all of them run the same callback, so the order
    among them does not show. *)
Definition elapse (dt : Z) (s : State) : State :=
  let t := clock s + dt in
  let fired := filter (fun tm => due tm <=? t) (timers s) in
  let kept := filter (fun tm => negb (due tm <=? t)) (timers s) in
  fold_left (fun s' tm => runCallback (callback tm) s') fired
    (mkState (tasks s) (title s) (dueDate s) (message s) (messageTimeoutRef s)
             t (nextHandle s) kept).

(* ================================================================== *)
(** * メッセージ表示（3秒で消える） *)

Definition showMessage (msg : string) (s : State) : State :=
  let s1 := setMessage msg s in
  let s2 := match messageTimeoutRef s1 with
            | Some h => clearTimeout h s1
            | None => s1
            end in
  let '(h, s3) := setTimeout ClearMessage 3000 s2 in
  setMessageTimeoutRef (Some h) s3.

(** The four texts the component shows. *)
Definition msgInputRequired : string := "⚠ タスク名と日付を入力してください".
Definition msgAdded : string := "✅ タスクを追加しました！".
Definition msgDeleted : string := "🚮 タスクを削除しました。".
Definition msgCancelled : string := "キャンセルされました".

(** [!x] on a string: only the empty string is falsy. *)
Definition falsy (x : string) : bool :=
  match x with
  | EmptyString => true
  | String _ _ => false
  end.

(* ================================================================== *)
(** * タスク追加処理

    [now] is the value [Date.now()] returns during the call. *)
Definition addTask (now : Z) (s : State) : State :=
  if falsy (title s) || falsy (dueDate s) then
    showMessage msgInputRequired s
  else
    let newTask := Task.mk now (title s) (dueDate s) false in
    showMessage msgAdded
      (setDueDate "" (setTitle "" (setTasks (newTask :: tasks s) s))).

(** * タスク削除処理（確認あり）

    [confirmed] is what [window.confirm] answers. *)
Definition deleteTask (id : Z) (confirmed : bool) (s : State) : State :=
  if confirmed then
    showMessage msgDeleted
      (setTasks (filter (fun task => negb (Task.id task =? id)) (tasks s)) s)
  else
    showMessage msgCancelled s.

(** * タスク完了トグル（チェック切替） *)
Definition toggleTaskDone (id : Z) (s : State) : State :=
  let updated :=
    map (fun task =>
           if Task.id task =? id
           then Task.mk (Task.id task) (Task.title task) (Task.dueDate task)
                        (negb (Task.isDone task))
           else task)
        (tasks s) in
  setTasks updated s.

(** ** The events of a session *)

Inductive Event : Type :=
| TypeTitle (text : string)               (* onChange of the text input *)
| PickDueDate (text : string)             (* onChange of the date input *)
| ClickAdd (now : Z)                      (* 追加, with the reading of Date.now() *)
| ClickToggle (id : Z)                    (* the checkbox of a task *)
| ClickDelete (id : Z) (confirmed : bool) (* 削除, with the answer of confirm *)
| Wait (dt : Z).                          (* nothing happens for dt ms *)

Definition step (s : State) (e : Event) : State :=
  match e with
  | TypeTitle text => setTitle text s
  | PickDueDate text => setDueDate text s
  | ClickAdd now => addTask now s
  | ClickToggle id => toggleTaskDone id s
  | ClickDelete id confirmed => deleteTask id confirmed s
  | Wait dt => elapse dt s
  end.

Definition run (s : State) (es : list Event) : State := fold_left step es s.

(** The state after mount, given what the [useState] initialisers
    produced: the list ([load] below, when what it returns is a list of
    tasks) and the text of the date field. *)
Definition mount (loaded : list Task.t) (today : string) : State :=
  mkState loaded "" today "" None 0 1%positive [].

(** A state is [coherent] when the ref tracks the timers: every
    scheduled timer is the one the ref holds, there is at most one, and
    no handle has run ahead of the allocator. *)
Definition coherent (s : State) : Prop :=
  (forall tm, In tm (timers s) ->
     messageTimeoutRef s = Some (handle tm) /\ (handle tm < nextHandle s)%positive) /\
  (List.length (timers s) <= 1)%nat /\
  (forall h, messageTimeoutRef s = Some h -> (h < nextHandle s)%positive).

(** [Subseq l' l]: [l'] is [l] with some elements left out, the others
    in their original order. *)
Inductive Subseq {A : Type} : list A -> list A -> Prop :=
| Subseq_nil : Subseq [] []
| Subseq_skip (x : A) (l' l : list A) : Subseq l' l -> Subseq l' (x :: l)
| Subseq_keep (x : A) (l' l : list A) : Subseq l' l -> Subseq (x :: l') (x :: l).

(** Two clicks on 追加 that read the same millisecond off [Date.now()]:
    a wall clock stepped back between them, or a scripted session. *)
Definition sameTickSession : list Event :=
  [ TypeTitle "Write report"; PickDueDate "2024-06-10"; ClickAdd 1718000000000;
    TypeTitle "Plan trip"; PickDueDate "2024-06-14"; ClickAdd 1718000000000 ].

(* ================================================================== *)
(** * Dates: the time values of ECMAScript (ECMA-262, 21.4.1)

    A [Date] object is represented by its time value: the number of
    milliseconds since 1970-01-01T00:00:00Z, or [NaN] for an
    [Invalid Date]. *)

Definition Num : Type := option Z.
Definition NaN : Num := None.
Definition JSDate : Type := Num.

Definition num_add (a b : Num) : Num :=
  match a, b with
  | Some x, Some y => Some (x + y)
  | _, _ => NaN
  end.

Definition num_sub (a b : Num) : Num :=
  match a, b with
  | Some x, Some y => Some (x - y)
  | _, _ => NaN
  end.

(** [a >= b] and [a <= b] on numbers: false as soon as one side is [NaN]. *)
Definition num_ge (a b : Num) : bool :=
  match a, b with
  | Some x, Some y => y <=? x
  | _, _ => false
  end.

Definition num_le (a b : Num) : bool :=
  match a, b with
  | Some x, Some y => x <=? y
  | _, _ => false
  end.

Definition msPerDay : Z := 86400000.
Definition Day (t : Z) : Z := t / msPerDay.
Definition TimeWithinDay (t : Z) : Z := t mod msPerDay.

Definition DaysInYear (y : Z) : Z :=
  if negb (y mod 4 =? 0) then 365
  else if negb (y mod 100 =? 0) then 366
  else if negb (y mod 400 =? 0) then 365
  else 366.

Definition DayFromYear (y : Z) : Z :=
  365 * (y - 1970) + (y - 1969) / 4 - (y - 1901) / 100 + (y - 1601) / 400.

(** The largest [y] with [DayFromYear y <= day]: the Gregorian mean year
    gives it within one, and the two neighbours are tried. *)
Definition YearFromDay (day : Z) : Z :=
  let y := 1970 + day * 400 / 146097 in
  if day <? DayFromYear y then y - 1
  else if DayFromYear (y + 1) <=? day then y + 1
  else y.

Definition YearFromTime (t : Z) : Z := YearFromDay (Day t).
Definition InLeapYear (t : Z) : Z :=
  if DaysInYear (YearFromTime t) =? 366 then 1 else 0.
Definition DayWithinYear (t : Z) : Z := Day t - DayFromYear (YearFromTime t).

(** The day within the year on which month [m] (0 = January) starts. *)
Definition monthStart (m leap : Z) : Z :=
  match m with
  | 0 => 0
  | 1 => 31
  | 2 => 59 + leap
  | 3 => 90 + leap
  | 4 => 120 + leap
  | 5 => 151 + leap
  | 6 => 181 + leap
  | 7 => 212 + leap
  | 8 => 243 + leap
  | 9 => 273 + leap
  | 10 => 304 + leap
  | _ => 334 + leap
  end.

Definition MonthFromTime (t : Z) : Z :=
  let d := DayWithinYear t in
  let leap := InLeapYear t in
  if d <? 31 then 0
  else if d <? 59 + leap then 1
  else if d <? 90 + leap then 2
  else if d <? 120 + leap then 3
  else if d <? 151 + leap then 4
  else if d <? 181 + leap then 5
  else if d <? 212 + leap then 6
  else if d <? 243 + leap then 7
  else if d <? 273 + leap then 8
  else if d <? 304 + leap then 9
  else if d <? 334 + leap then 10
  else 11.

Definition DateFromTime (t : Z) : Z :=
  DayWithinYear t - monthStart (MonthFromTime t) (InLeapYear t) + 1.

Definition WeekDay (t : Z) : Z := (Day t + 4) mod 7.

Definition MakeDay (year month date : Z) : Z :=
  let ym := year + month / 12 in
  let mn := month mod 12 in
  let leap := if DaysInYear ym =? 366 then 1 else 0 in
  DayFromYear ym + monthStart mn leap + date - 1.

Definition MakeDate (day time : Z) : Z := day * msPerDay + time.

Definition TimeClip (t : Z) : Num :=
  if Z.abs t <=? 8640000000000000 then Some t else NaN.

(** What the component needs of its host: the offset of local time,
    [LocalTZA(t, isUTC)] of ECMA-262, and [new Date(string)], whose
    result for anything but the ISO forms is left to the host. *)
Record Host : Type := mkHost {
  LocalTZA : Z -> bool -> Z;
  Date_parse : string -> JSDate
}.

Definition weekdayName (d : Z) : string :=
  match d with
  | 0 => "Sun" | 1 => "Mon" | 2 => "Tue" | 3 => "Wed"
  | 4 => "Thu" | 5 => "Fri" | _ => "Sat"
  end.

Definition monthName (m : Z) : string :=
  match m with
  | 0 => "Jan" | 1 => "Feb" | 2 => "Mar" | 3 => "Apr" | 4 => "May" | 5 => "Jun"
  | 6 => "Jul" | 7 => "Aug" | 8 => "Sep" | 9 => "Oct" | 10 => "Nov" | _ => "Dec"
  end.

(** The decimal digits of a natural number. *)
Definition decimalString (n : Z) : string :=
  NilZero.string_of_uint (N.to_uint (Z.to_N n)).

Fixpoint zeros (k : nat) : string :=
  match k with
  | O => ""
  | S k' => String "0" (zeros k')
  end.

Definition ToZeroPaddedDecimalString (n : Z) (minLength : nat) : string :=
  let d := decimalString n in
  zeros (minLength - String.length d) ++ d.

(** [DateString(tv)] of ECMA-262: "Mon Jun 10 2024". *)
Definition DateString (tv : Z) : string :=
  let yv := YearFromTime tv in
  weekdayName (WeekDay tv) ++ " " ++ monthName (MonthFromTime tv) ++ " " ++
  ToZeroPaddedDecimalString (DateFromTime tv) 2 ++ " " ++
  (if 0 <=? yv then "" else "-") ++ ToZeroPaddedDecimalString (Z.abs yv) 4.

Section DateMethods.
Variable host : Host.

Definition LocalTime (t : Z) : Z := t + LocalTZA host t true.
Definition UTC (t : Z) : Z := t - LocalTZA host t false.

Definition getDate (d : JSDate) : Num :=
  match d with
  | Some t => Some (DateFromTime (LocalTime t))
  | None => NaN
  end.

Definition getDay (d : JSDate) : Num :=
  match d with
  | Some t => Some (WeekDay (LocalTime t))
  | None => NaN
  end.

(** [d.setDate(dt)], as the time value [d] holds afterwards. *)
Definition setDate (d : JSDate) (dt : Num) : JSDate :=
  match d, dt with
  | Some t, Some n =>
      let lt := LocalTime t in
      let newDate :=
        MakeDate (MakeDay (YearFromTime lt) (MonthFromTime lt) n) (TimeWithinDay lt) in
      TimeClip (UTC newDate)
  | _, _ => NaN
  end.

Definition toDateString (d : JSDate) : string :=
  match d with
  | Some t => DateString (LocalTime t)
  | None => "Invalid Date"
  end.

(* ---------------------------------------------------------------- *)
(** * 日付判定関数（同日 / 今週） *)

Definition isSameDay (d1 d2 : JSDate) : bool :=
  String.eqb (toDateString d1) (toDateString d2).

(** [now] is the [new Date()] the function makes when it is called. *)
Definition isInThisWeek (now : JSDate) (date : JSDate) : bool :=
  let start := setDate now (num_sub (getDate now) (getDay now)) in
  let end_ := setDate now (num_add (getDate now) (num_sub (Some 6) (getDay now))) in
  num_ge date start && num_le date end_ && negb (isSameDay date now).

(* ---------------------------------------------------------------- *)
(** * タスク分類（今日・今週・その他・選択日）

    A render reads the clock once for [today] and once more in every
    call of [isInThisWeek]; [today] and [now] stand for these readings. *)

Definition todayTasks (today : JSDate) (tasks : list Task.t) : list Task.t :=
  filter (fun task => isSameDay (Date_parse host (Task.dueDate task)) today) tasks.

Definition thisWeekTasks (now : JSDate) (tasks : list Task.t) : list Task.t :=
  filter (fun task => isInThisWeek now (Date_parse host (Task.dueDate task))) tasks.

Definition otherTasks (today now : JSDate) (tasks : list Task.t) : list Task.t :=
  filter (fun task =>
            negb (isSameDay (Date_parse host (Task.dueDate task)) today) &&
            negb (isInThisWeek now (Date_parse host (Task.dueDate task))))
         tasks.

Definition selectedDateTasks (selectedDate : option JSDate) (tasks : list Task.t)
  : list Task.t :=
  filter (fun task =>
            match selectedDate with
            | Some d => isSameDay (Date_parse host (Task.dueDate task)) d
            | None => false
            end)
         tasks.

End DateMethods.

(** ** Two hosts to evaluate on

    [isoDateOnly] reads the date-only ISO form [YYYY-MM-DD], which is
    what [<input type="date">] produces, as midnight UTC of that day
    (ECMA-262, 21.4.1.32), and yields [Invalid Date] for everything
    else. *)

Definition digitValue (c : ascii) : option Z :=
  let n := Z.of_nat (nat_of_ascii c) in
  if (48 <=? n) && (n <=? 57) then Some (n - 48) else None.

Definition DaysInMonth (year month : Z) : Z :=
  match month with
  | 1 => if DaysInYear year =? 366 then 29 else 28
  | 3 | 5 | 8 | 10 => 30
  | _ => 31
  end.

Definition isoDateOnly (s : string) : JSDate :=
  match s with
  | String y1 (String y2 (String y3 (String y4 (String h1
      (String m1 (String m2 (String h2 (String d1 (String d2 EmptyString))))))))) =>
      match digitValue y1, digitValue y2, digitValue y3, digitValue y4,
            digitValue m1, digitValue m2, digitValue d1, digitValue d2 with
      | Some a, Some b, Some c, Some d, Some e, Some f, Some g, Some h =>
          let year := 1000 * a + 100 * b + 10 * c + d in
          let month := 10 * e + f in
          let date := 10 * g + h in
          if Ascii.eqb h1 "-" && Ascii.eqb h2 "-" &&
             (1 <=? month) && (month <=? 12) &&
             (1 <=? date) && (date <=? DaysInMonth year (month - 1))
          then TimeClip (MakeDate (MakeDay year (month - 1) date) 0)
          else NaN
      | _, _, _, _, _, _, _, _ => NaN
      end
  | _ => NaN
  end.

(** A host on UTC, one on Japan Standard Time (UTC+9) and one on
    Mountain Standard Time as Phoenix keeps it (UTC-7); none of the
    three has summer time. *)
Definition utcHost : Host := mkHost (fun _ _ => 0) isoDateOnly.
Definition jstHost : Host := mkHost (fun _ _ => 9 * 3600000) isoDateOnly.
Definition phoenixHost : Host := mkHost (fun _ _ => - 7 * 3600000) isoDateOnly.

(** ** The week of the specification

    Following the words of the specification, not the code: a date is in
    the Sunday-to-Saturday week of [now] when its local calendar day
    lies between the Sunday on or before [now] and the Saturday on or
    after it, both included; and it is in this week when, besides, it is
    not on the calendar day of [now]. *)
Definition spec_inWeekOf (host : Host) (now date : Z) : bool :=
  let today := Day (LocalTime host now) in
  let sunday := today - WeekDay (LocalTime host now) in
  let day := Day (LocalTime host date) in
  (sunday <=? day) && (day <=? sunday + 6).

Definition spec_isInThisWeek (host : Host) (now date : Z) : bool :=
  spec_inWeekOf host now date &&
  negb (Day (LocalTime host date) =? Day (LocalTime host now)).

(** ** The due day of the specification

    Following the words of the specification, not the code: [dueDate] is
    a calendar date with no time component, the day its text yyyy-MM-dd
    names; a task is due on [now] when that day is the local calendar
    day of [now].  Days are numbered from 1 January 1970. *)
Definition spec_dueDay (text : string) : option Z :=
  option_map Day (isoDateOnly text).

Definition spec_dueOn (host : Host) (now : Z) (task : Task.t) : bool :=
  match spec_dueDay (Task.dueDate task) with
  | Some day => day =? Day (LocalTime host now)
  | None => false
  end.

(* ================================================================== *)
(** * Exceptions *)

Inductive Exception : Type :=
| SyntaxError          (* JSON.parse on text that is not JSON *)
| SecurityError        (* localStorage of a document that may not use it *)
| QuotaExceededError.  (* setItem beyond the quota *)

Inductive Result (A : Type) : Type :=
| Ok (a : A)
| Throw (e : Exception).
Arguments Ok {A} a.
Arguments Throw {A} e.

Definition bind {A B : Type} (m : Result A) (k : A -> Result B) : Result B :=
  match m with
  | Ok a => k a
  | Throw e => Throw e
  end.

(** [try { body } catch { handler }] *)
Definition try_catch {A : Type} (body : Result A) (handler : Result A) : Result A :=
  match body with
  | Ok a => Ok a
  | Throw _ => handler
  end.

Notation "x <- m ;; k" := (bind m (fun x => k))
  (at level 61, m at next level, right associativity).

(* ================================================================== *)
(** * JSON (ECMA-262, 25.5; ECMA-404)

    Values as [JSON.parse] builds them.  A number is kept as the exact
    rational its literal denotes, in lowest terms; JavaScript rounds it
    to the nearest double, which changes nothing for the integers below
    2^53 in magnitude, and [-0] is not told from [0].  The members of an
    object are in insertion order; the order in which JavaScript lists
    keys that look like array indices is not modelled. *)

#[warnings="-register-all"] Inductive JSValue : Type :=
| JNull
| JBool (b : bool)
| JNum (q : Q)
| JStr (s : string)
| JArr (elements : list JSValue)
| JObj (members : list (string * JSValue)).

Definition dquote : ascii := ascii_of_nat 34.
Definition backslash : ascii := ascii_of_nat 92.

Definition isWhiteSpace (c : ascii) : bool :=
  let n := nat_of_ascii c in
  Nat.eqb n 32 || Nat.eqb n 9 || Nat.eqb n 10 || Nat.eqb n 13.

Fixpoint skipWhiteSpace (s : string) : string :=
  match s with
  | EmptyString => EmptyString
  | String c r => if isWhiteSpace c then skipWhiteSpace r else s
  end.

(** ** String literals *)

Definition hexValue (c : ascii) : option N :=
  let n := N_of_ascii c in
  if (48 <=? n)%N && (n <=? 57)%N then Some (n - 48)%N
  else if (97 <=? n)%N && (n <=? 102)%N then Some (n - 87)%N
  else if (65 <=? n)%N && (n <=? 70)%N then Some (n - 55)%N
  else None.

Definition hex4 (a b c d : ascii) : option N :=
  match hexValue a, hexValue b, hexValue c, hexValue d with
  | Some x, Some y, Some z, Some w => Some (4096 * x + 256 * y + 16 * z + w)%N
  | _, _, _, _ => None
  end.

(** The bytes of a code point in UTF-8; a surrogate that stands alone
    gets the three bytes the scheme gives its value. *)
Definition utf8 (cp : N) : string :=
  if (cp <? 128)%N then String (ascii_of_N cp) EmptyString
  else if (cp <? 2048)%N then
    String (ascii_of_N (192 + cp / 64))
      (String (ascii_of_N (128 + cp mod 64)) EmptyString)
  else if (cp <? 65536)%N then
    String (ascii_of_N (224 + cp / 4096))
      (String (ascii_of_N (128 + (cp / 64) mod 64))
         (String (ascii_of_N (128 + cp mod 64)) EmptyString))
  else
    String (ascii_of_N (240 + cp / 262144))
      (String (ascii_of_N (128 + (cp / 4096) mod 64))
         (String (ascii_of_N (128 + (cp / 64) mod 64))
            (String (ascii_of_N (128 + cp mod 64)) EmptyString))).

Definition isHighSurrogate (u : N) : bool := (55296 <=? u)%N && (u <=? 56319)%N.
Definition isLowSurrogate (u : N) : bool := (56320 <=? u)%N && (u <=? 57343)%N.

(** The character a one-letter escape stands for. *)
Definition simpleEscape (e : ascii) : option ascii :=
  let n := nat_of_ascii e in
  if Nat.eqb n 34 then Some dquote                    (* \ and a double quote *)
  else if Nat.eqb n 92 then Some backslash            (* \\ *)
  else if Nat.eqb n 47 then Some "/"%char             (* \/ *)
  else if Nat.eqb n 98 then Some (ascii_of_nat 8)     (* \b *)
  else if Nat.eqb n 102 then Some (ascii_of_nat 12)   (* \f *)
  else if Nat.eqb n 110 then Some (ascii_of_nat 10)   (* \n *)
  else if Nat.eqb n 114 then Some (ascii_of_nat 13)   (* \r *)
  else if Nat.eqb n 116 then Some (ascii_of_nat 9)    (* \t *)
  else None.

Definition prepend (p : string) (r : option (string * string)) : option (string * string) :=
  match r with
  | Some (str, rest) => Some (p ++ str, rest)
  | None => None
  end.

(** The characters of a string literal, read from just after the
    opening quote up to and including the closing one: the text they
    denote, and what follows the literal. *)
Fixpoint parseChars (s : string) : option (string * string) :=
  match s with
  | EmptyString => None
  | String c r =>
      if Ascii.eqb c dquote then Some (EmptyString, r)
      else if Ascii.eqb c backslash then
        match r with
        | EmptyString => None
        | String e r1 =>
            match simpleEscape e with
            | Some b => prepend (String b EmptyString) (parseChars r1)
            | None =>
                if Ascii.eqb e "u" then
                  match r1 with
                  | String h1 (String h2 (String h3 (String h4 r2))) =>
                      match hex4 h1 h2 h3 h4 with
                      | Some hi =>
                          if isHighSurrogate hi then
                            match r2 with
                            | String b2 (String u2 (String l1 (String l2
                                (String l3 (String l4 r3))))) =>
                                match hex4 l1 l2 l3 l4 with
                                | Some lo =>
                                    if Ascii.eqb b2 backslash && Ascii.eqb u2 "u" &&
                                       isLowSurrogate lo
                                    then prepend
                                           (utf8 (65536 + (hi - 55296) * 1024 + (lo - 56320))%N)
                                           (parseChars r3)
                                    else prepend (utf8 hi) (parseChars r2)
                                | None => prepend (utf8 hi) (parseChars r2)
                                end
                            | _ => prepend (utf8 hi) (parseChars r2)
                            end
                          else prepend (utf8 hi) (parseChars r2)
                      | None => None
                      end
                  | _ => None
                  end
                else None
            end
        end
      else if (N_of_ascii c <? 32)%N then None
      else prepend (String c EmptyString) (parseChars r)
  end.

(** ** Numbers *)

Definition digitOfChar (c : ascii) : option (Decimal.uint -> Decimal.uint) :=
  match nat_of_ascii c with
  | 48%nat => Some Decimal.D0 | 49%nat => Some Decimal.D1 | 50%nat => Some Decimal.D2
  | 51%nat => Some Decimal.D3 | 52%nat => Some Decimal.D4 | 53%nat => Some Decimal.D5
  | 54%nat => Some Decimal.D6 | 55%nat => Some Decimal.D7 | 56%nat => Some Decimal.D8
  | 57%nat => Some Decimal.D9
  | _ => None
  end.

(** The longest run of digits at the front of [s], and the rest. *)
Fixpoint readDigits (s : string) : Decimal.uint * string :=
  match s with
  | EmptyString => (Decimal.Nil, EmptyString)
  | String c r =>
      match digitOfChar c with
      | Some d => let '(u, rest) := readDigits r in (d u, rest)
      | None => (Decimal.Nil, s)
      end
  end.

Definition negateIf (neg : bool) (z : Z) : Z := if neg then - z else z.

(** An optional minus sign. *)
Definition readSign (s : string) : bool * string :=
  match s with
  | String c r => if Ascii.eqb c "-" then (true, r) else (false, s)
  | EmptyString => (false, s)
  end.

(** An optional fraction: a point and the digits after it. *)
Definition readFraction (s : string) : option Decimal.uint * string :=
  match s with
  | String c r =>
      if Ascii.eqb c "." then let '(f, r') := readDigits r in (Some f, r')
      else (None, s)
  | EmptyString => (None, s)
  end.

(** An optional exponent: [e] or [E], an optional sign, and digits. *)
Definition readExponent (s : string) : option (bool * Decimal.uint) * string :=
  match s with
  | String c r =>
      if Ascii.eqb c "e" || Ascii.eqb c "E" then
        let '(eneg, r1) :=
          match r with
          | String c' r' =>
              if Ascii.eqb c' "-" then (true, r')
              else if Ascii.eqb c' "+" then (false, r')
              else (false, r)
          | EmptyString => (false, r)
          end in
        let '(e, r2) := readDigits r1 in
        (Some (eneg, e), r2)
      else (None, s)
  | EmptyString => (None, s)
  end.

(** The integer part is there, and is [0] or has no leading zero. *)
Definition wellFormedInt (int : Decimal.uint) : bool :=
  match int with
  | Decimal.Nil => false
  | Decimal.D0 Decimal.Nil => true
  | Decimal.D0 _ => false
  | _ => true
  end.

(** The number a literal denotes; [None] when a point or an [e] is
    followed by no digit. *)
Definition numberValue (neg : bool) (int : Decimal.uint)
           (frac : option Decimal.uint) (exp : option (bool * Decimal.uint))
  : option Q :=
  match frac, exp with
  | Some Decimal.Nil, _ => None
  | _, Some (_, Decimal.Nil) => None
  | None, None => Some (inject_Z (negateIf neg (Z.of_uint int)))
  | _, _ =>
      let f := match frac with Some f => f | None => Decimal.Nil end in
      let e := match exp with
               | Some (eneg, e) => negateIf eneg (Z.of_uint e)
               | None => 0
               end in
      let mantissa := negateIf neg (Z.of_uint (Decimal.app int f)) in
      Some (Qred (Qmult (inject_Z mantissa)
                        (Qpower (inject_Z 10) (e - Z.of_nat (Decimal.nb_digits f)))))
  end.

(** [-? int frac? exp?], with [int] either [0] or without a leading zero. *)
Definition parseNumber (s : string) : option (Q * string) :=
  let '(neg, s1) := readSign s in
  let '(int, s2) := readDigits s1 in
  if wellFormedInt int then
    let '(frac, s3) := readFraction s2 in
    let '(exp, s4) := readExponent s3 in
    match numberValue neg int frac exp with
    | Some q => Some (q, s4)
    | None => None
    end
  else None.

(** ** Values *)

(** [s] starts with [word]: what follows it. *)
Fixpoint afterWord (word s : string) : option string :=
  match word, s with
  | EmptyString, _ => Some s
  | String a w, String b r => if Ascii.eqb a b then afterWord w r else None
  | String _ _, EmptyString => None
  end.

(** A property is created at the end, or overwritten where it stands. *)
Fixpoint setProperty (k : string) (v : JSValue) (o : list (string * JSValue))
  : list (string * JSValue) :=
  match o with
  | [] => [(k, v)]
  | (k', v') :: o' =>
      if String.eqb k' k then (k, v) :: o' else (k', v') :: setProperty k v o'
  end.

Definition makeObject (members : list (string * JSValue)) : JSValue :=
  JObj (fold_left (fun o kv => setProperty (fst kv) (snd kv) o) members []).

Definition isNumberStart (c : ascii) : bool :=
  Ascii.eqb c "-" || match digitOfChar c with Some _ => true | None => false end.

(** Recursive descent.  Each of the three parsers is written over the
    parsers it calls; [fuel] then ties the knot, bounding the nesting
    and the number of siblings, and [JSON_parse] below gives it more
    than any text can use ([parseValue_fuel_enough]). *)

Definition ValueParser : Type := string -> option (JSValue * string).
Definition ElementsParser : Type := string -> option (list JSValue * string).
Definition MembersParser : Type := string -> option (list (string * JSValue) * string).

(** A value, after optional white space. *)
Definition valueStep (members : MembersParser) (elements : ElementsParser) : ValueParser :=
  fun s =>
    match skipWhiteSpace s with
    | EmptyString => None
    | String c r =>
        if Ascii.eqb c "{" then
          match skipWhiteSpace r with
          | EmptyString => None
          | String c' r' =>
              if Ascii.eqb c' "}" then Some (JObj [], r')
              else match members r with
                   | Some (ms, rest) => Some (makeObject ms, rest)
                   | None => None
                   end
          end
        else if Ascii.eqb c "[" then
          match skipWhiteSpace r with
          | EmptyString => None
          | String c' r' =>
              if Ascii.eqb c' "]" then Some (JArr [], r')
              else match elements r with
                   | Some (vs, rest) => Some (JArr vs, rest)
                   | None => None
                   end
          end
        else if Ascii.eqb c dquote then
          match parseChars r with
          | Some (str, rest) => Some (JStr str, rest)
          | None => None
          end
        else if Ascii.eqb c "t" then
          match afterWord "rue" r with
          | Some rest => Some (JBool true, rest)
          | None => None
          end
        else if Ascii.eqb c "f" then
          match afterWord "alse" r with
          | Some rest => Some (JBool false, rest)
          | None => None
          end
        else if Ascii.eqb c "n" then
          match afterWord "ull" r with
          | Some rest => Some (JNull, rest)
          | None => None
          end
        else if isNumberStart c then
          match parseNumber (String c r) with
          | Some (q, rest) => Some (JNum q, rest)
          | None => None
          end
        else None
    end.

(** The elements of a non-empty array, up to and including its [\]]. *)
Definition elementsStep (value : ValueParser) (elements : ElementsParser) : ElementsParser :=
  fun s =>
    match value s with
    | Some (v, r) =>
        match skipWhiteSpace r with
        | EmptyString => None
        | String c r' =>
            if Ascii.eqb c "," then
              match elements r' with
              | Some (vs, rest) => Some (v :: vs, rest)
              | None => None
              end
            else if Ascii.eqb c "]" then Some ([v], r')
            else None
        end
    | None => None
    end.

(** The members of a non-empty object, up to and including its [}]. *)
Definition membersStep (value : ValueParser) (members : MembersParser) : MembersParser :=
  fun s =>
    match skipWhiteSpace s with
    | EmptyString => None
    | String c r =>
        if Ascii.eqb c dquote then
          match parseChars r with
          | Some (k, r1) =>
              match skipWhiteSpace r1 with
              | EmptyString => None
              | String c1 r2 =>
                  if Ascii.eqb c1 ":" then
                    match value r2 with
                    | Some (v, r3) =>
                        match skipWhiteSpace r3 with
                        | EmptyString => None
                        | String c2 r4 =>
                            if Ascii.eqb c2 "," then
                              match members r4 with
                              | Some (ms, rest) => Some ((k, v) :: ms, rest)
                              | None => None
                              end
                            else if Ascii.eqb c2 "}" then Some ([(k, v)], r4)
                            else None
                        end
                    | None => None
                    end
                  else None
              end
          | None => None
          end
        else None
    end.

Fixpoint parseValue (fuel : nat) : ValueParser :=
  match fuel with
  | O => fun _ => None
  | S fuel' => valueStep (parseMembers fuel') (parseElements fuel')
  end
with parseElements (fuel : nat) : ElementsParser :=
  match fuel with
  | O => fun _ => None
  | S fuel' => elementsStep (parseValue fuel') (parseElements fuel')
  end
with parseMembers (fuel : nat) : MembersParser :=
  match fuel with
  | O => fun _ => None
  | S fuel' => membersStep (parseValue fuel') (parseMembers fuel')
  end.

(** [JSON.parse(text)]: the value, or a [SyntaxError]. *)
Definition JSON_parse (text : string) : Result JSValue :=
  match parseValue (2 * String.length text) text with
  | Some (v, rest) =>
      match skipWhiteSpace rest with
      | EmptyString => Ok v
      | String _ _ => Throw SyntaxError
      end
  | None => Throw SyntaxError
  end.

(** ** [JSON.stringify] at the type [Task[]] *)

Definition hexDigit (n : N) : ascii :=
  if (n <? 10)%N then ascii_of_N (48 + n) else ascii_of_N (87 + n).

(** [QuoteJSONString], one character at a time. *)
Definition escapeChar (c : ascii) : string :=
  let n := N_of_ascii c in
  if (n =? 8)%N then "\b"
  else if (n =? 9)%N then "\t"
  else if (n =? 10)%N then "\n"
  else if (n =? 12)%N then "\f"
  else if (n =? 13)%N then "\r"
  else if (n =? 34)%N then String backslash (String dquote EmptyString)
  else if (n =? 92)%N then String backslash (String backslash EmptyString)
  else if (n <? 32)%N then
    "\u00" ++ String (hexDigit (n / 16)) (String (hexDigit (n mod 16)) EmptyString)
  else String c EmptyString.

Fixpoint escape (s : string) : string :=
  match s with
  | EmptyString => EmptyString
  | String c r => escapeChar c ++ escape r
  end.

Definition QuoteJSONString (s : string) : string :=
  String dquote (escape s ++ String dquote EmptyString).

(** [Number::toString] of an integer below 10^21 in magnitude. *)
Definition numberToString (z : Z) : string :=
  NilZero.string_of_int (Z.to_int z).

Definition stringifyTask (task : Task.t) : string :=
  "{" ++ QuoteJSONString "id" ++ ":" ++ numberToString (Task.id task) ++
  "," ++ QuoteJSONString "title" ++ ":" ++ QuoteJSONString (Task.title task) ++
  "," ++ QuoteJSONString "dueDate" ++ ":" ++ QuoteJSONString (Task.dueDate task) ++
  "," ++ QuoteJSONString "isDone" ++ ":" ++
  (if Task.isDone task then "true" else "false") ++ "}".

Fixpoint joinTasks (l : list Task.t) : string :=
  match l with
  | [] => ""
  | [task] => stringifyTask task
  | task :: rest => stringifyTask task ++ "," ++ joinTasks rest
  end.

Definition JSON_stringify (collection : list Task.t) : string :=
  "[" ++ joinTasks collection ++ "]".

(** A [Task] and a [Task[]] as JavaScript values. *)
Definition taskValue (task : Task.t) : JSValue :=
  JObj [ ("id", JNum (inject_Z (Task.id task)));
         ("title", JStr (Task.title task));
         ("dueDate", JStr (Task.dueDate task));
         ("isDone", JBool (Task.isDone task)) ].

Definition tasksValue (collection : list Task.t) : JSValue :=
  JArr (map taskValue collection).

(* ================================================================== *)
(** * localStorage

    [denied]: the document may not use storage, and touching it throws.
    [quota]: the text [setItem] refuses to store under a key, which is
    the user agent's own policy. *)

Record Storage : Type := mkStorage {
  denied : bool;
  quota : string -> string -> bool;
  items : string -> option string
}.

Definition getItem (ls : Storage) (key : string) : Result (option string) :=
  if denied ls then Throw SecurityError else Ok (items ls key).

Definition setItem (ls : Storage) (key value : string) : Result Storage :=
  if denied ls then Throw SecurityError
  else if quota ls key value then Throw QuotaExceededError
  else Ok (mkStorage (denied ls) (quota ls)
             (fun k => if String.eqb k key then Some value else items ls k)).

(** [stored ? ... : ...] on [string | null]. *)
Definition truthy (stored : option string) : bool :=
  match stored with
  | Some text => negb (falsy text)
  | None => false
  end.

(** * タスク一覧(localStorage を使って初期値にする)

    The initialiser of [useState<Task[]>]: what it returns is whatever
    [JSON.parse] built; the annotation [Task[]] is not checked at run
    time. *)
Definition load (ls : Storage) : Result JSValue :=
  try_catch
    (stored <- getItem ls "tasks" ;;
     match stored with
     | Some text => if truthy stored then JSON_parse text else Ok (JArr [])
     | None => Ok (JArr [])
     end)
    (Ok (JArr [])).

(** * タスクの保存（localStorageに保存）

    The body of the effect that runs after every render in which the
    list has changed. *)
Definition save (ls : Storage) (collection : list Task.t) : Result Storage :=
  setItem ls "tasks" (JSON_stringify collection).

(** JSON text for the examples, written with ['] where JSON has the
    double quote. *)
Fixpoint jsonText (s : string) : string :=
  match s with
  | EmptyString => EmptyString
  | String c r => String (if Ascii.eqb c "'" then dquote else c) (jsonText r)
  end.

Definition storing (text : option string) : Storage :=
  mkStorage false (fun _ _ => false)
            (fun k => if String.eqb k "tasks" then text else None).

(** A list to try the slot on. *)
Definition sampleTasks : list Task.t :=
  [ Task.mk 1718000000001 "Plan trip" "2024-06-14" false;
    Task.mk 1718000000000 "Write report" "2024-06-10" true ].

(** ** Notions the proofs about the parsers use *)

(** [q] succeeds wherever [p] does, with the same result. *)
Definition extends {A : Type} (p q : string -> option A) : Prop :=
  forall s r, p s = Some r -> q s = Some r.

(** A parser that succeeds has read at least one character. *)
Definition consuming {A : Type} (p : string -> option (A * string)) : Prop :=
  forall s a r, p s = Some (a, r) -> (String.length r < String.length s)%nat.

(** What a parser has read bounds the fuel it needs: two units for
    each character. *)
Definition frugal {A : Type} (p : nat -> string -> option (A * string)) (n : nat) : Prop :=
  forall s a r, p n s = Some (a, r) ->
                p (2 * (String.length s - String.length r))%nat s = Some (a, r).

(** [more_fuel mono E k]: the parse [E] still succeeds on [k] units of
    fuel, [mono] being the lemma that more fuel never hurts and [lia]
    showing that [k] is more. *)
Ltac more_fuel mono E k :=
  match type of E with
  | parseValue ?n _ = _ => apply (proj1 (mono n k ltac:(lia))) in E
  | parseElements ?n _ = _ => apply (proj1 (proj2 (mono n k ltac:(lia)))) in E
  | parseMembers ?n _ = _ => apply (proj2 (proj2 (mono n k ltac:(lia)))) in E
  end.

(** The readings of [Date.now()] a session takes, in order. *)
Fixpoint readings (es : list Event) : list Z :=
  match es with
  | [] => []
  | ClickAdd now :: es' => now :: readings es'
  | _ :: es' => readings es'
  end.

(* ================================================================== *)
(** * 今日の日付を yyyy-MM-dd 形式で表示: the initialiser of [dueDate]

    [today.toISOString().split('T')[0]], with [today] the [new Date()]
    of the first render, which is never an [Invalid Date]. *)

Definition msPerHour : Z := 3600000.
Definition msPerMinute : Z := 60000.
Definition msPerSecond : Z := 1000.
Definition HourFromTime (t : Z) : Z := (t / msPerHour) mod 24.
Definition MinFromTime (t : Z) : Z := (t / msPerMinute) mod 60.
Definition SecFromTime (t : Z) : Z := (t / msPerSecond) mod 60.
Definition msFromTime (t : Z) : Z := t mod msPerSecond.

(** [Date.prototype.toISOString] of a valid date (ECMA-262, 21.4.4.36):
    UTC, the year on four digits from 0 to 9999 and on six with a sign
    otherwise. *)
Definition toISOString (tv : Z) : string :=
  let yv := YearFromTime tv in
  (if (0 <=? yv) && (yv <=? 9999) then ToZeroPaddedDecimalString yv 4
   else (if 0 <=? yv then "+" else "-") ++ ToZeroPaddedDecimalString (Z.abs yv) 6) ++
  "-" ++ ToZeroPaddedDecimalString (MonthFromTime tv + 1) 2 ++
  "-" ++ ToZeroPaddedDecimalString (DateFromTime tv) 2 ++
  "T" ++ ToZeroPaddedDecimalString (HourFromTime tv) 2 ++
  ":" ++ ToZeroPaddedDecimalString (MinFromTime tv) 2 ++
  ":" ++ ToZeroPaddedDecimalString (SecFromTime tv) 2 ++
  "." ++ ToZeroPaddedDecimalString (msFromTime tv) 3 ++ "Z".

(** [s.split(sep)] for a separator of one character. *)
Fixpoint split (sep : ascii) (s : string) : list string :=
  match s with
  | EmptyString => [EmptyString]
  | String c r =>
      if Ascii.eqb c sep then EmptyString :: split sep r
      else match split sep r with
           | piece :: pieces => String c piece :: pieces
           | [] => [String c EmptyString]
           end
  end.

(** [now] is the time value of [new Date()] at the first render. *)
Definition initialDueDate (now : Z) : string :=
  hd EmptyString (split "T" (toISOString now)).

(** Proof device: the padded decimal of a number below 100 is two
    digits that read back as the number. *)
Definition twoDigits (n : Z) : bool :=
  match ToZeroPaddedDecimalString n 2 with
  | String a (String b EmptyString) =>
      match digitValue a, digitValue b with
      | Some x, Some y => 10 * x + y =? n
      | _, _ => false
      end
  | _ => false
  end.

(** A decimal numeral with one more digit in front, and the number a
    numeral denotes, read from its first digit on. *)
Definition digitUint (x : Z) (u : Decimal.uint) : Decimal.uint :=
  match x with
  | 0 => Decimal.D0 u
  | 1 => Decimal.D1 u
  | 2 => Decimal.D2 u
  | 3 => Decimal.D3 u
  | 4 => Decimal.D4 u
  | 5 => Decimal.D5 u
  | 6 => Decimal.D6 u
  | 7 => Decimal.D7 u
  | 8 => Decimal.D8 u
  | _ => Decimal.D9 u
  end.

Fixpoint uintValue (u : Decimal.uint) (acc : N) : N :=
  match u with
  | Decimal.Nil => acc
  | Decimal.D0 u' => uintValue u' (10 * acc)
  | Decimal.D1 u' => uintValue u' (1 + 10 * acc)
  | Decimal.D2 u' => uintValue u' (2 + 10 * acc)
  | Decimal.D3 u' => uintValue u' (3 + 10 * acc)
  | Decimal.D4 u' => uintValue u' (4 + 10 * acc)
  | Decimal.D5 u' => uintValue u' (5 + 10 * acc)
  | Decimal.D6 u' => uintValue u' (6 + 10 * acc)
  | Decimal.D7 u' => uintValue u' (7 + 10 * acc)
  | Decimal.D8 u' => uintValue u' (8 + 10 * acc)
  | Decimal.D9 u' => uintValue u' (9 + 10 * acc)
  end%N.

(* ================================================================== *)
(** * Sessions *)

(** In a session time moves on: no wait is negative. *)
Definition timeMovesOn (es : list Event) : Prop :=
  forall dt, In (Wait dt) es -> 0 <= dt.

(** Every timer is due within three seconds, and a message shows only
    while one is scheduled. *)
Definition expiring (s : State) : Prop :=
  (forall tm, In tm (timers s) -> due tm <= clock s + 3000) /\
  (timers s = [] -> message s = EmptyString).

(* ================================================================== *)
(** * タスクの保存（localStorageに保存）: the effect, along a session

    [useEffect(..., [tasks])] runs its body after the first render and
    after every render for which [setTasks] was called with a new array:
    an accepted 追加 (line 64), a confirmed 削除 (line 75, [filter]
    makes a new array) and every tick (line 94, [map] makes one).  A
    throw of [setItem] is a throw of the effect. *)

Definition setsTasks (s : State) (e : Event) : bool :=
  match e with
  | ClickAdd _ => negb (falsy (title s) || falsy (dueDate s))
  | ClickToggle _ => true
  | ClickDelete _ confirmed => confirmed
  | TypeTitle _ | PickDueDate _ | Wait _ => false
  end.

(** The initialiser returns the list [loaded]: what [load] returns is
    the array of these tasks. *)
Definition loads (ls : Storage) (loaded : list Task.t) : Prop :=
  load ls = Ok (tasksValue loaded).

(** The first render and its effect, [loaded] being the list the
    initialiser returned. *)
Definition mounted (ls : Storage) (loaded : list Task.t) (today : string)
  : Result (State * Storage) :=
  ls' <- save ls loaded ;;
  Ok (mount loaded today, ls').

(** An event, the render that follows and its effect. *)
Definition commit (s : State) (ls : Storage) (e : Event) : Result (State * Storage) :=
  if setsTasks s e then
    ls' <- save ls (tasks (step s e)) ;;
    Ok (step s e, ls')
  else Ok (step s e, ls).

Fixpoint commits (s : State) (ls : Storage) (es : list Event) : Result (State * Storage) :=
  match es with
  | [] => Ok (s, ls)
  | e :: es' =>
      r <- commit s ls e ;;
      commits (fst r) (snd r) es'
  end.

(** The session from the list the initialiser returned; [visit] below
    starts from the storage and takes the list from [load]. *)
Definition session (ls : Storage) (loaded : list Task.t) (today : string)
           (es : list Event) : Result (State * Storage) :=
  r <- mounted ls loaded today ;;
  commits (fst r) (snd r) es.

(** ** A visit: the initialiser, the first render, the session

    The state is typed [Task[]] but holds what [JSON.parse] built.  The
    first render calls [tasks.filter] (line 116), which only an array
    has: on any other value that is a TypeError, thrown before any
    effect has run.  On the array of a list of tasks the visit is the
    session from that list.  An array with other elements is not
    followed. *)
Definition asTask (v : JSValue) : option Task.t :=
  match v with
  | JObj [(k1, JNum (Qmake n 1%positive)); (k2, JStr t); (k3, JStr d); (k4, JBool b)] =>
      if String.eqb k1 "id" && String.eqb k2 "title" &&
         String.eqb k3 "dueDate" && String.eqb k4 "isDone"
      then Some (Task.mk n t d b)
      else None
  | _ => None
  end.

Fixpoint asTasks (elements : list JSValue) : option (list Task.t) :=
  match elements with
  | [] => Some []
  | v :: rest =>
      match asTask v, asTasks rest with
      | Some task, Some collection => Some (task :: collection)
      | _, _ => None
      end
  end.

Inductive Visit : Type :=
| Ends (r : Result (State * Storage))   (* the session ran, or an effect threw *)
| RenderThrows                          (* TypeError at the first render *)
| NotFollowed.                          (* an array that is no list of tasks *)

Definition visit (ls : Storage) (today : string) (es : list Event) : Visit :=
  match load ls with
  | Ok (JArr elements) =>
      match asTasks elements with
      | Some loaded => Ends (session ls loaded today es)
      | None => NotFollowed
      end
  | Ok _ => RenderThrows
  | Throw e => Ends (Throw e)
  end.

(** Storage that takes every write. *)
Definition accepting (ls : Storage) : Prop :=
  denied ls = false /\ forall key value, quota ls key value = false.

(** Reading a zero-padded decimal back. *)
Definition readPadded (s : string) : option N :=
  option_map N.of_uint (NilEmpty.uint_of_string s).

(** What the storage holds is what the list is. *)
Definition inSync (s : State) (ls : Storage) : Prop :=
  accepting ls /\ items ls "tasks" = Some (JSON_stringify (tasks s)).


(* ================================================================== *)
(** * Theorems *)

Example run_two_adds :
  map Task.id (tasks (run (mount [] "2024-06-10")
     [TypeTitle "a"; ClickAdd 5; TypeTitle "b"; PickDueDate "2024-06-11"; ClickAdd 7]))
  = [7; 5].
Proof. reflexivity. Qed.

(** ** Projections of the state through the setters and [showMessage] *)

Lemma showMessage_tasks (msg : string) (s : State) :
  tasks (showMessage msg s) = tasks s.
Proof.
  unfold showMessage. simpl. destruct (messageTimeoutRef s); reflexivity.
Qed.

Lemma showMessage_message (msg : string) (s : State) :
  message (showMessage msg s) = msg.
Proof.
  unfold showMessage. simpl. destruct (messageTimeoutRef s); reflexivity.
Qed.

Lemma showMessage_inputs (msg : string) (s : State) :
  title (showMessage msg s) = title s /\ dueDate (showMessage msg s) = dueDate s.
Proof.
  unfold showMessage. simpl. destruct (messageTimeoutRef s); split; reflexivity.
Qed.

Lemma falsy_iff (x : string) : falsy x = true <-> x = "".
Proof.
  destruct x; simpl; split; intro H; try reflexivity; discriminate H.
Qed.

Lemma falsy_false_iff (x : string) : falsy x = false <-> x <> "".
Proof.
  destruct x; simpl; split; intro H; try discriminate H; try reflexivity.
  - exfalso. apply H. reflexivity.
  - discriminate.
Qed.

(* ------------------------------------------------------------------ *)
(** ** addTask *)

(** C6. With an empty title or an empty due date [addTask] leaves the
    list as it is and shows the warning; with both filled in it puts a
    new task, not done, in front of the list, the tasks that were there
    following unchanged and in their order. *)
Theorem addTask_validates_then_prepends (now : Z) (s : State) :
  ((title s = "" \/ dueDate s = "") ->
     tasks (addTask now s) = tasks s /\
     message (addTask now s) = msgInputRequired /\
     msgInputRequired <> "") /\
  ((title s <> "" /\ dueDate s <> "") ->
     exists newTask,
       tasks (addTask now s) = newTask :: tasks s /\
       Task.isDone newTask = false /\
       Task.id newTask = now /\
       Task.title newTask = title s /\
       Task.dueDate newTask = dueDate s).
Proof.
  unfold addTask. split.
  - intros [H | H]; apply falsy_iff in H; rewrite H;
      rewrite ?orb_true_r; simpl orb; cbv iota;
      rewrite showMessage_tasks, showMessage_message;
      (repeat split; try reflexivity; discriminate).
  - intros [Ht Hd]. apply falsy_false_iff in Ht, Hd. rewrite Ht, Hd. simpl orb. cbv iota.
    eexists. rewrite showMessage_tasks. simpl.
    repeat split; reflexivity.
Qed.

(* ------------------------------------------------------------------ *)
(** ** toggleTaskDone *)

Lemma toggleTaskDone_tasks (id : Z) (s : State) :
  tasks (toggleTaskDone id s) =
  map (fun task =>
         if Task.id task =? id
         then Task.mk (Task.id task) (Task.title task) (Task.dueDate task)
                      (negb (Task.isDone task))
         else task) (tasks s).
Proof. reflexivity. Qed.

Lemma map_unchanged {A : Type} (f : A -> A) (l : list A) :
  (forall x, In x l -> f x = x) -> map f l = l.
Proof.
  induction l as [| x l IH]; intro H; simpl.
  - reflexivity.
  - rewrite (H x (or_introl eq_refl)), IH; [reflexivity |].
    intros y Hy. apply H. right. exact Hy.
Qed.

(** C7. [toggleTaskDone id] keeps the length and the positions of the
    list; at every position the task keeps its id, title and due date;
    its [isDone] is negated when its id is [id], and the task is the
    same otherwise; when no task has that id the whole state is
    unchanged. *)
Theorem toggleTaskDone_flips_in_place (id : Z) (s : State) :
  List.length (tasks (toggleTaskDone id s)) = List.length (tasks s) /\
  (forall (i : nat) (task : Task.t),
     nth_error (tasks s) i = Some task ->
     exists task',
       nth_error (tasks (toggleTaskDone id s)) i = Some task' /\
       Task.id task' = Task.id task /\
       Task.title task' = Task.title task /\
       Task.dueDate task' = Task.dueDate task /\
       (Task.id task = id -> Task.isDone task' = negb (Task.isDone task)) /\
       (Task.id task <> id -> task' = task)) /\
  ((forall task, In task (tasks s) -> Task.id task <> id) ->
     toggleTaskDone id s = s).
Proof.
  rewrite toggleTaskDone_tasks. split; [| split].
  - apply length_map.
  - intros i task Hi. rewrite nth_error_map, Hi. simpl.
    destruct (Z.eqb_spec (Task.id task) id) as [E | E].
    + eexists. split; [reflexivity |]. simpl.
      repeat split; try reflexivity. intro N. contradiction.
    + exists task. repeat split; try reflexivity. intro N. contradiction.
  - intro Hno. unfold toggleTaskDone. rewrite map_unchanged.
    + destruct s; reflexivity.
    + intros task Hin. destruct (Z.eqb_spec (Task.id task) id) as [E | E].
      * exfalso. exact (Hno task Hin E).
      * reflexivity.
Qed.

(** X1. Toggling twice gives every task, and the whole state, back as
    it was. *)
Lemma toggleTaskDone_twice (id : Z) (s : State) :
  toggleTaskDone id (toggleTaskDone id s) = s.
Proof.
  unfold toggleTaskDone. cbn [tasks setTasks].
  rewrite map_map, map_unchanged.
  - destruct s; reflexivity.
  - intros task _. destruct task as [i t d b]. cbn [Task.id].
    destruct (Z.eqb_spec i id) as [E | E]; cbn [Task.id Task.title Task.dueDate Task.isDone].
    + subst i. rewrite Z.eqb_refl, negb_involutive. reflexivity.
    + apply Z.eqb_neq in E. rewrite E. reflexivity.
Qed.

(* ------------------------------------------------------------------ *)
(** ** deleteTask *)

Lemma deleteTask_tasks (id : Z) (s : State) :
  tasks (deleteTask id true s) =
  filter (fun task => negb (Task.id task =? id)) (tasks s).
Proof. unfold deleteTask. rewrite showMessage_tasks. reflexivity. Qed.

Lemma keeps_iff (id : Z) (task : Task.t) :
  negb (Task.id task =? id) = true <-> Task.id task <> id.
Proof.
  destruct (Z.eqb_spec (Task.id task) id); simpl; split; intro H;
    try reflexivity; try discriminate; try assumption.
  exfalso. exact (H e).
Qed.

Lemma filter_unchanged {A : Type} (f : A -> bool) (l : list A) :
  (forall x, In x l -> f x = true) -> filter f l = l.
Proof.
  induction l as [| x l IH]; intro H; simpl.
  - reflexivity.
  - rewrite (H x (or_introl eq_refl)), IH; [reflexivity |].
    intros y Hy. apply H. right. exact Hy.
Qed.

Lemma filter_Subseq {A : Type} (f : A -> bool) (l : list A) :
  Subseq (filter f l) l.
Proof.
  induction l as [| x l IH]; simpl.
  - constructor.
  - destruct (f x); constructor; exact IH.
Qed.

Lemma filter_count_occ {A : Type} (dec : forall a b : A, {a = b} + {a <> b})
      (f : A -> bool) (l : list A) (x : A) :
  f x = true -> count_occ dec (filter f l) x = count_occ dec l x.
Proof.
  intro Hx. induction l as [| y l IH]; simpl.
  - reflexivity.
  - destruct (f y) eqn:Hy; simpl.
    + destruct (dec y x); rewrite IH; reflexivity.
    + destruct (dec y x) as [E | E].
      * subst y. rewrite Hx in Hy. discriminate.
      * exact IH.
Qed.

(** C8. When the user declines, [deleteTask] leaves the list as it is
    and shows the cancel text.  When the user confirms, it shows the
    deleted text whether or not a task has the id, the tasks left are
    those of the list whose id differs from [id], and the list is
    unchanged when no task has that id. *)
Theorem deleteTask_asks_first (id : Z) (s : State) :
  (tasks (deleteTask id false s) = tasks s /\
   message (deleteTask id false s) = msgCancelled) /\
  message (deleteTask id true s) = msgDeleted /\
  (forall task, In task (tasks (deleteTask id true s)) <->
                In task (tasks s) /\ Task.id task <> id) /\
  ((forall task, In task (tasks s) -> Task.id task <> id) ->
     tasks (deleteTask id true s) = tasks s).
Proof.
  split; [| split; [| split]].
  - unfold deleteTask. rewrite showMessage_tasks, showMessage_message. split; reflexivity.
  - unfold deleteTask. apply showMessage_message.
  - intro task. rewrite deleteTask_tasks, filter_In, keeps_iff. reflexivity.
  - intro Hno. rewrite deleteTask_tasks. apply filter_unchanged.
    intros task Hin. apply keeps_iff. exact (Hno task Hin).
Qed.

(** C10. A confirmed [deleteTask id] leaves no task with that id, however
    many there were; every other task stays as often as it occurred; and
    the tasks that stay are in the order they had. *)
Theorem deleteTask_removes_every_match (id : Z) (s : State) :
  (forall task, In task (tasks (deleteTask id true s)) -> Task.id task <> id) /\
  (forall task, Task.id task <> id ->
     count_occ Task.eq_dec (tasks (deleteTask id true s)) task =
     count_occ Task.eq_dec (tasks s) task) /\
  Subseq (tasks (deleteTask id true s)) (tasks s).
Proof.
  rewrite deleteTask_tasks. split; [| split].
  - intros task Hin. apply filter_In in Hin. apply keeps_iff. apply Hin.
  - intros task Hne. apply filter_count_occ. apply keeps_iff. exact Hne.
  - apply filter_Subseq.
Qed.

Example deleteTask_shared_id :
  tasks (deleteTask 5 true
           (mount [Task.mk 5 "a" "2024-06-10" false; Task.mk 7 "b" "2024-06-11" true;
                   Task.mk 5 "c" "2024-06-12" false; Task.mk 9 "d" "2024-06-13" false]
                  "2024-06-10"))
  = [Task.mk 7 "b" "2024-06-11" true; Task.mk 9 "d" "2024-06-13" false].
Proof. reflexivity. Qed.

(* ------------------------------------------------------------------ *)
(** ** Task ids *)

Lemma toggleTaskDone_ids (id : Z) (s : State) :
  map Task.id (tasks (toggleTaskDone id s)) = map Task.id (tasks s).
Proof.
  rewrite toggleTaskDone_tasks, map_map. apply map_ext.
  intro task. destruct (Task.id task =? id); reflexivity.
Qed.

Lemma NoDup_map_filter {A B : Type} (g : A -> B) (f : A -> bool) (l : list A) :
  NoDup (map g l) -> NoDup (map g (filter f l)).
Proof.
  induction l as [| x l IH]; simpl; intro H.
  - constructor.
  - inversion H as [| y ys Hnot Hrest]; subst.
    destruct (f x); simpl.
    + constructor; [| exact (IH Hrest)].
      intro Hin. apply Hnot. apply in_map_iff in Hin.
      destruct Hin as [z [Hz Hzin]]. apply filter_In in Hzin.
      apply in_map_iff. exists z. split; [exact Hz | apply Hzin].
    + exact (IH Hrest).
Qed.

(** Toggling and deleting keep the ids of the list pairwise distinct. *)
Lemma toggleTaskDone_keeps_ids_distinct (id : Z) (s : State) :
  NoDup (map Task.id (tasks s)) ->
  NoDup (map Task.id (tasks (toggleTaskDone id s))).
Proof. rewrite toggleTaskDone_ids. exact (fun H => H). Qed.

Lemma deleteTask_keeps_ids_distinct (id : Z) (confirmed : bool) (s : State) :
  NoDup (map Task.id (tasks s)) ->
  NoDup (map Task.id (tasks (deleteTask id confirmed s))).
Proof.
  destruct confirmed.
  - rewrite deleteTask_tasks. apply NoDup_map_filter.
  - unfold deleteTask. rewrite showMessage_tasks. exact (fun H => H).
Qed.

(** Adding keeps them distinct when the reading of the clock is the id
    of no task of the list. *)
Lemma addTask_keeps_ids_distinct_when_fresh (now : Z) (s : State) :
  NoDup (map Task.id (tasks s)) ->
  ~ In now (map Task.id (tasks s)) ->
  NoDup (map Task.id (tasks (addTask now s))).
Proof.
  intros Hnd Hfresh. unfold addTask.
  destruct (falsy (title s) || falsy (dueDate s)); rewrite showMessage_tasks.
  - exact Hnd.
  - simpl. constructor; assumption.
Qed.

Lemma NoDup_app_shrink {A : Type} (l1 l2 l2' : list A) :
  NoDup (l1 ++ l2) -> NoDup l2' -> (forall x, In x l2' -> In x l2) ->
  NoDup (l1 ++ l2').
Proof.
  intros H H' Hsub. induction l1 as [| a l1 IH]; simpl in *.
  - exact H'.
  - inversion H as [| y ys Hnot Hrest]; subst. constructor.
    + intro Hin. apply Hnot. apply in_app_or in Hin. apply in_or_app.
      destruct Hin as [Hin | Hin]; [left; exact Hin | right; apply Hsub; exact Hin].
    + apply IH. exact Hrest.
Qed.

(** As long as every click on 追加 reads a time off the clock that no
    earlier click read and that is the id of no task loaded at mount,
    the ids of the list stay pairwise distinct through the session. *)
Lemma run_keeps_ids_distinct (es : list Event) (s : State) :
  NoDup (readings es ++ map Task.id (tasks s)) ->
  NoDup (map Task.id (tasks (run s es))).
Proof.
  revert s. induction es as [| e es IH]; intros s H.
  - exact H.
  - simpl run. apply IH.
    destruct e as [text | text | now | id | id confirmed | dt]; cbn [step readings app] in *.
    + exact H.
    + exact H.
    + unfold addTask.
      destruct (falsy (title s) || falsy (dueDate s)); rewrite showMessage_tasks.
      * simpl in H. inversion H; assumption.
      * simpl map. simpl in H.
        apply (Permutation_NoDup (Permutation_middle _ _ _)). exact H.
    + rewrite toggleTaskDone_ids. exact H.
    + apply (NoDup_app_shrink _ (map Task.id (tasks s))).
      * exact H.
      * apply deleteTask_keeps_ids_distinct. apply (NoDup_app_remove_l _ _ H).
      * intros x Hx. destruct confirmed.
        -- rewrite deleteTask_tasks in Hx. apply in_map_iff in Hx.
           destruct Hx as [task [Ht Hin]]. apply filter_In in Hin.
           apply in_map_iff. exists task. split; [exact Ht | apply Hin].
        -- unfold deleteTask in Hx. rewrite showMessage_tasks in Hx. exact Hx.
    + assert (E : tasks (elapse dt s) = tasks s).
      { unfold elapse.
        set (s0 := mkState _ _ _ _ _ _ _ _).
        assert (G : forall l st, tasks (fold_left (fun s' tm => runCallback (callback tm) s') l st)
                                 = tasks st).
        { induction l as [| tm l IHl]; intro st; simpl; [reflexivity |].
          rewrite IHl. destruct (callback tm). reflexivity. }
        rewrite G. reflexivity. }
      rewrite E. exact H.
Qed.

(** C1. Two tasks added under one reading of [Date.now()] carry the
    same id: the ids of the list are then not pairwise distinct. *)
Theorem addTask_same_tick_repeats_id :
  map Task.id (tasks (run (mount [] "2024-06-10") sameTickSession))
    = [1718000000000; 1718000000000] /\
  ~ NoDup (map Task.id (tasks (run (mount [] "2024-06-10") sameTickSession))).
Proof.
  assert (E : map Task.id (tasks (run (mount [] "2024-06-10") sameTickSession))
              = [1718000000000; 1718000000000]) by reflexivity.
  split; [exact E |].
  rewrite E. intro H. inversion H as [| x l Hnot _]; subst.
  apply Hnot. left. reflexivity.
Qed.

(* ------------------------------------------------------------------ *)
(** ** showMessage and its timer *)

Lemma coherent_cases (s : State) :
  coherent s ->
  timers s = [] \/
  exists tm, timers s = [tm] /\ messageTimeoutRef s = Some (handle tm).
Proof.
  intros [Hall [Hlen _]].
  destruct (timers s) as [| tm [| tm' rest]] eqn:E.
  - left. reflexivity.
  - right. exists tm. split; [reflexivity |].
    apply Hall. left. reflexivity.
  - simpl in Hlen. lia.
Qed.

Lemma coherent_mount (loaded : list Task.t) (today : string) :
  coherent (mount loaded today).
Proof.
  unfold coherent, mount. simpl. repeat split.
  - contradiction.
  - contradiction.
  - lia.
  - intros h H. discriminate H.
Qed.

(** What [showMessage] leaves behind in a coherent state: the text, one
    timer, three seconds ahead, and the ref holding its handle. *)
Lemma showMessage_schedules (msg : string) (s : State) :
  coherent s ->
  message (showMessage msg s) = msg /\
  timers (showMessage msg s) = [mkTimer (nextHandle s) (clock s + 3000) ClearMessage] /\
  messageTimeoutRef (showMessage msg s) = Some (nextHandle s) /\
  nextHandle (showMessage msg s) = Pos.succ (nextHandle s) /\
  clock (showMessage msg s) = clock s.
Proof.
  intro Hc. destruct (coherent_cases s Hc) as [E | [tm [E Href]]];
    unfold showMessage; simpl.
  - destruct (messageTimeoutRef s); simpl; rewrite E; repeat split; reflexivity.
  - rewrite Href. simpl. rewrite E. simpl. rewrite Pos.eqb_refl. simpl.
    repeat split; reflexivity.
Qed.

Lemma coherent_showMessage (msg : string) (s : State) :
  coherent s -> coherent (showMessage msg s).
Proof.
  intro Hc. destruct (showMessage_schedules msg s Hc) as [_ [Ht [Hr [Hn _]]]].
  unfold coherent. rewrite Ht, Hr, Hn. simpl. repeat split.
  - destruct H as [H | []]. subst tm. reflexivity.
  - destruct H as [H | []]. subst tm. simpl. lia.
  - lia.
  - intros h H. inversion H. lia.
Qed.

(** A single pending [ClearMessage] timer: what [elapse] does to it. *)
Lemma elapse_before_due (dt : Z) (s : State) (tm : Timer) :
  timers s = [tm] -> clock s + dt < due tm ->
  message (elapse dt s) = message s /\
  timers (elapse dt s) = [tm] /\
  messageTimeoutRef (elapse dt s) = messageTimeoutRef s /\
  nextHandle (elapse dt s) = nextHandle s /\
  clock (elapse dt s) = clock s + dt.
Proof.
  intros E Hlt. unfold elapse. rewrite E. simpl.
  destruct (Z.leb_spec (due tm) (clock s + dt)) as [Hle | _]; [lia |].
  simpl. repeat split; reflexivity.
Qed.

Lemma elapse_after_due (dt : Z) (s : State) (tm : Timer) :
  timers s = [tm] -> due tm <= clock s + dt ->
  message (elapse dt s) = "" /\
  timers (elapse dt s) = [] /\
  messageTimeoutRef (elapse dt s) = messageTimeoutRef s /\
  nextHandle (elapse dt s) = nextHandle s /\
  clock (elapse dt s) = clock s + dt.
Proof.
  intros E Hle. unfold elapse. rewrite E. simpl.
  destruct (Z.leb_spec (due tm) (clock s + dt)) as [_ | Hlt]; [| lia].
  simpl. destruct (callback tm). simpl. repeat split; reflexivity.
Qed.

Lemma coherent_elapse (dt : Z) (s : State) :
  coherent s -> coherent (elapse dt s).
Proof.
  intro Hc. destruct (coherent_cases s Hc) as [E | [tm [E Href]]].
  - destruct Hc as [_ [_ Hr]]. unfold elapse. rewrite E. simpl.
    unfold coherent. simpl. repeat split; try contradiction; try lia. exact Hr.
  - destruct Hc as [Hall [_ Hr]].
    destruct (Z.lt_ge_cases (clock s + dt) (due tm)) as [Hlt | Hge].
    + destruct (elapse_before_due dt s tm E Hlt) as [_ [Ht [Hm [Hn _]]]].
      unfold coherent. rewrite Ht, Hm, Hn, <- E. repeat split.
      * apply Hall. exact H.
      * apply Hall. exact H.
      * rewrite E. simpl. lia.
      * exact Hr.
    + destruct (elapse_after_due dt s tm E Hge) as [_ [Ht [Hm [Hn _]]]].
      unfold coherent. rewrite Ht, Hm, Hn. simpl.
      repeat split; try contradiction; try lia. exact Hr.
Qed.

(** After [showMessage] the text stays for any wait shorter than three
    seconds and is gone after any wait of three seconds or more. *)
Lemma showMessage_then_wait (msg : string) (dt : Z) (s : State) :
  coherent s ->
  (dt < 3000 -> message (elapse dt (showMessage msg s)) = msg) /\
  (3000 <= dt -> message (elapse dt (showMessage msg s)) = "").
Proof.
  intro Hc. destruct (showMessage_schedules msg s Hc) as [Hm [Ht [_ [_ Hk]]]].
  split; intro Hdt.
  - destruct (elapse_before_due dt _ _ Ht) as [H _]; [rewrite Hk; simpl; lia |].
    rewrite H. exact Hm.
  - destruct (elapse_after_due dt _ _ Ht) as [H _]; [rewrite Hk; simpl; lia |].
    exact H.
Qed.

(** C9. In a coherent state, [showMessage text] sets the message to
    [text]; the timer a prior call left in the ref is no longer
    scheduled; exactly one timer is scheduled, for 3000 ms after the
    call, and the ref holds it; so the text stays through any shorter
    wait and is empty after 3000 ms.  Hence [showMessage a], 1000 ms,
    [showMessage b], 2500 ms leaves [b] showing, and 600 ms more clear
    it. *)
Theorem showMessage_debounces (text : string) (s : State) :
  coherent s ->
  message (showMessage text s) = text /\
  (forall h, messageTimeoutRef s = Some h ->
     forall tm, In tm (timers (showMessage text s)) -> handle tm <> h) /\
  (exists h',
     timers (showMessage text s) = [mkTimer h' (clock s + 3000) ClearMessage] /\
     messageTimeoutRef (showMessage text s) = Some h') /\
  (forall dt, dt < 3000 -> message (elapse dt (showMessage text s)) = text) /\
  (forall dt, 3000 <= dt -> message (elapse dt (showMessage text s)) = "") /\
  (forall a b,
     message (elapse 2500 (showMessage b (elapse 1000 (showMessage a s)))) = b /\
     message (elapse 600
                (elapse 2500 (showMessage b (elapse 1000 (showMessage a s))))) = "").
Proof.
  intro Hc.
  destruct (showMessage_schedules text s Hc) as [Hm [Ht [Hr _]]].
  split; [exact Hm |]. split; [| split; [| split; [| split]]].
  - intros h Hh tm Hin. rewrite Ht in Hin. destruct Hin as [E | []]. subst tm. simpl.
    destruct Hc as [_ [_ Hlt]]. specialize (Hlt h Hh). lia.
  - exists (nextHandle s). split; assumption.
  - intros dt Hdt. apply showMessage_then_wait; assumption.
  - intros dt Hdt. apply showMessage_then_wait; assumption.
  - intros a b.
    pose proof (coherent_showMessage a s Hc) as Hca.
    destruct (showMessage_schedules a s Hc) as [_ [Hta [_ [_ Hka]]]].
    pose proof (coherent_elapse 1000 _ Hca) as Hc1.
    destruct (elapse_before_due 1000 _ _ Hta) as [_ [_ [_ [_ Hk1]]]];
      [rewrite Hka; simpl; lia |].
    set (s1 := elapse 1000 (showMessage a s)) in *.
    destruct (showMessage_schedules b s1 Hc1) as [Hmb [Htb [_ [_ Hkb]]]].
    destruct (elapse_before_due 2500 _ _ Htb) as [Hm2 [Ht2 [_ [_ Hk2]]]];
      [rewrite Hkb; simpl; lia |].
    split; [rewrite Hm2; exact Hmb |].
    destruct (elapse_after_due 600 _ _ Ht2) as [Hm3 _];
      [rewrite Hk2, Hkb; simpl; lia |].
    exact Hm3.
Qed.

Lemma showMessage_debounces_witness :
  coherent (mount [] "2024-06-10") /\
  message (elapse 2500 (showMessage "B" (elapse 1000
             (showMessage "A" (mount [] "2024-06-10"))))) = "B" /\
  message (elapse 600 (elapse 2500 (showMessage "B" (elapse 1000
             (showMessage "A" (mount [] "2024-06-10")))))) = "".
Proof.
  assert (Hc : coherent (mount [] "2024-06-10")).
  { unfold coherent; simpl. repeat split; try contradiction; try lia.
    intros h H; discriminate H. }
  split; [exact Hc |].
  apply (showMessage_debounces "A" (mount [] "2024-06-10") Hc).
Defined.

Example debounce_scenario_by_evaluation :
  let s1 := elapse 2500 (showMessage "B" (elapse 1000 (showMessage "A" (mount [] "")))) in
  (message s1, map due (timers s1), clock s1) = ("B", [4000], 3500) /\
  (message (elapse 600 s1), timers (elapse 600 s1)) = ("", []).
Proof. split; reflexivity. Qed.

(** Every event keeps the state coherent, so every state a session
    reaches from [mount] is. *)
Lemma coherent_step (s : State) (e : Event) : coherent s -> coherent (step s e).
Proof.
  intro Hc. destruct e as [text | text | now | id | id confirmed | dt]; simpl.
  - exact Hc.
  - exact Hc.
  - unfold addTask. destruct (falsy (title s) || falsy (dueDate s));
      apply coherent_showMessage; exact Hc.
  - exact Hc.
  - unfold deleteTask. destruct confirmed; apply coherent_showMessage; exact Hc.
  - apply coherent_elapse. exact Hc.
Qed.

Lemma coherent_run (es : list Event) (s : State) : coherent s -> coherent (run s es).
Proof.
  revert s. induction es as [| e es IH]; intros s Hc; simpl.
  - exact Hc.
  - apply IH. apply coherent_step. exact Hc.
Qed.

(* ------------------------------------------------------------------ *)
(** ** Dates *)

Example toDateString_samples :
  toDateString utcHost (Some 1718020800000) = "Mon Jun 10 2024" /\
  toDateString utcHost (Some 1717891200000) = "Sun Jun 09 2024" /\
  toDateString utcHost (Some 1709164800000) = "Thu Feb 29 2024" /\
  toDateString utcHost (Some (-86400000)) = "Wed Dec 31 1969" /\
  toDateString utcHost (Some 978307140000) = "Sun Dec 31 2000" /\
  toDateString utcHost (Some (-2203891200000)) = "Thu Mar 01 1900" /\
  toDateString jstHost (Some 978307140000) = "Mon Jan 01 2001" /\
  toDateString utcHost NaN = "Invalid Date".
Proof. repeat split; vm_compute; reflexivity. Qed.

Example isoDateOnly_samples :
  isoDateOnly "2024-06-09" = Some 1717891200000 /\
  isoDateOnly "2024-02-29" = Some 1709164800000 /\
  isoDateOnly "1969-12-31" = Some (-86400000) /\
  isoDateOnly "2023-02-29" = NaN /\
  isoDateOnly "tomorrow" = NaN /\
  isoDateOnly "" = NaN.
Proof. repeat split; vm_compute; reflexivity. Qed.

Example setDate_samples :
  (* Wed 12 Jun 2024 12:00 UTC, moved to the 9th and to the 15th *)
  setDate utcHost (Some 1718193600000) (Some 9) = Some (1717891200000 + 43200000) /\
  setDate utcHost (Some 1718193600000) (Some 15) = Some (1718409600000 + 43200000) /\
  (* day 0 is the last day of May, day 31 the first of July *)
  toDateString utcHost (setDate utcHost (Some 1718193600000) (Some 0)) = "Fri May 31 2024" /\
  toDateString utcHost (setDate utcHost (Some 1718193600000) (Some 31)) = "Mon Jul 01 2024" /\
  setDate utcHost (Some 1718193600000) NaN = NaN.
Proof. repeat split; vm_compute; reflexivity. Qed.

(** [YearFromDay] is the year ECMA-262 asks for: the one whose first
    day is on or before [day] while the next year's is after it. *)
Lemma YearFromDay_spec (day : Z) :
  DayFromYear (YearFromDay day) <= day < DayFromYear (YearFromDay day + 1).
Proof.
  unfold YearFromDay.
  set (y := 1970 + day * 400 / 146097).
  assert (Hy : 146097 * (y - 1970) <= day * 400 < 146097 * (y - 1970) + 146097).
  { unfold y. pose proof (Z.div_mod (day * 400) 146097 ltac:(lia)).
    pose proof (Z.mod_pos_bound (day * 400) 146097 ltac:(lia)). lia. }
  clearbody y.
  destruct (Z.ltb_spec day (DayFromYear y)) as [H1 | H1].
  - unfold DayFromYear in *. replace (y - 1 + 1) with y by lia.
    split; [| exact H1].
    Z.to_euclidean_division_equations. lia.
  - destruct (Z.leb_spec (DayFromYear (y + 1)) day) as [H2 | H2].
    + unfold DayFromYear in *. split; [exact H2 |].
      Z.to_euclidean_division_equations. lia.
    + split; assumption.
Qed.

Lemma MonthFromTime_range (t : Z) : 0 <= MonthFromTime t <= 11.
Proof.
  unfold MonthFromTime.
  repeat match goal with
         | |- context [if ?b then _ else _] => destruct b
         end; lia.
Qed.

(** [setDate] moves a date by whole days and keeps its time of day:
    setting the day of the month to [getDate() + k] is a shift by [k]
    days, on a host whose offset from UTC is fixed. *)
Lemma setDate_shifts_days (tza t k : Z) (parse : string -> JSDate) :
  let host := mkHost (fun _ _ => tza) parse in
  setDate host (Some t) (num_add (getDate host (Some t)) (Some k))
  = TimeClip (t + k * msPerDay).
Proof.
  intro host. unfold setDate, getDate, num_add, LocalTime, UTC. simpl.
  f_equal. set (lt := t + tza).
  pose proof (MonthFromTime_range lt) as Hm.
  unfold MakeDate, MakeDay.
  replace (MonthFromTime lt / 12) with 0 by (symmetry; apply Z.div_small; lia).
  rewrite (Z.mod_small (MonthFromTime lt) 12) by lia.
  rewrite Z.add_0_r.
  unfold DateFromTime, DayWithinYear, InLeapYear, TimeWithinDay, Day.
  pose proof (Z.div_mod lt msPerDay ltac:(unfold msPerDay; lia)) as Hdm.
  unfold lt in *. lia.
Qed.

(** The window [isInThisWeek] tests against, on such a host: from the
    Sunday of the week of [now] AT THE TIME OF DAY OF [now] to the
    Saturday at that same time of day. *)
Lemma isInThisWeek_window (tza now date : Z) (parse : string -> JSDate) :
  let host := mkHost (fun _ _ => tza) parse in
  let wd := WeekDay (now + tza) in
  isInThisWeek host (Some now) (Some date) =
  num_ge (Some date) (TimeClip (now - wd * msPerDay)) &&
  num_le (Some date) (TimeClip (now + (6 - wd) * msPerDay)) &&
  negb (isSameDay host (Some date) (Some now)).
Proof.
  intros host wd. unfold isInThisWeek.
  assert (E1 : num_sub (getDate host (Some now)) (getDay host (Some now))
               = num_add (getDate host (Some now)) (Some (- wd))).
  { unfold host, wd, getDate, getDay, num_sub, num_add, LocalTime. simpl.
    reflexivity. }
  assert (E2 : num_add (getDate host (Some now))
                 (num_sub (Some 6) (getDay host (Some now)))
               = num_add (getDate host (Some now)) (Some (6 - wd))).
  { unfold host, wd, getDate, getDay, num_sub, num_add, LocalTime. simpl.
    reflexivity. }
  rewrite E1, E2. unfold host.
  rewrite !(setDate_shifts_days tza now _ parse).
  replace (now + - wd * msPerDay) with (now - wd * msPerDay) by lia.
  reflexivity.
Qed.

(** C3. Wednesday 12 June 2024, noon, on a host on UTC; a task due on
    Sunday the 9th, the first day of that week.  The date is in the
    Sunday-to-Saturday week of [now] and not on the day of [now], yet
    [isInThisWeek] answers false: the window opens on Sunday at noon,
    the time of day of [now], and the due date is Sunday at midnight. *)
Theorem isInThisWeek_misses_week_start :
  let now := 1718193600000 in
  Date_parse utcHost "2024-06-09" = Some 1717891200000 /\
  toDateString utcHost (Some now) = "Wed Jun 12 2024" /\
  toDateString utcHost (Some 1717891200000) = "Sun Jun 09 2024" /\
  spec_isInThisWeek utcHost now 1717891200000 = true /\
  isInThisWeek utcHost (Some now) (Some 1717891200000) = false.
Proof. repeat split; vm_compute; reflexivity. Qed.

(** The same week seen from Tokyo: a date input's day is 09:00 local
    time, so before nine in the morning the Saturday falls out of the
    window, and from nine on the Sunday does. *)
Example isInThisWeek_in_tokyo :
  let morning := 1718193600000 - 9 * 3600000 - 4 * 3600000 in  (* Wed 12 Jun, 08:00 JST *)
  let noon := 1718193600000 - 9 * 3600000 in                   (* Wed 12 Jun, 12:00 JST *)
  let sunday := Date_parse jstHost "2024-06-09" in
  let friday := Date_parse jstHost "2024-06-14" in
  let saturday := Date_parse jstHost "2024-06-15" in
  (isInThisWeek jstHost (Some morning) sunday,
   isInThisWeek jstHost (Some morning) friday,
   isInThisWeek jstHost (Some morning) saturday) = (true, true, false) /\
  (isInThisWeek jstHost (Some noon) sunday,
   isInThisWeek jstHost (Some noon) friday,
   isInThisWeek jstHost (Some noon) saturday) = (false, true, true).
Proof. split; vm_compute; reflexivity. Qed.

(* ------------------------------------------------------------------ *)
(** ** The three views *)

Lemma filter3_Permutation {A : Type} (p q r : A -> bool) (l : list A) :
  (forall x, In x l ->
     (p x = true /\ q x = false /\ r x = false) \/
     (p x = false /\ q x = true /\ r x = false) \/
     (p x = false /\ q x = false /\ r x = true)) ->
  Permutation (filter p l ++ filter q l ++ filter r l) l.
Proof.
  induction l as [| x l IH]; intro H; simpl.
  - constructor.
  - assert (IH' : Permutation (filter p l ++ filter q l ++ filter r l) l).
    { apply IH. intros y Hy. apply H. right. exact Hy. }
    destruct (H x (or_introl eq_refl)) as [[Hp [Hq Hr]] | [[Hp [Hq Hr]] | [Hp [Hq Hr]]]];
      rewrite Hp, Hq, Hr.
    + simpl. constructor. exact IH'.
    + apply Permutation_sym, Permutation_cons_app, Permutation_sym. exact IH'.
    + rewrite app_assoc. apply Permutation_sym, Permutation_cons_app, Permutation_sym.
      rewrite <- app_assoc. exact IH'.
Qed.

(** The three tests of a render, on one task: exactly one holds. *)
Lemma one_view_per_task (host : Host) (now : JSDate) (task : Task.t) :
  let d := Date_parse host (Task.dueDate task) in
  (isSameDay host d now = true /\ isInThisWeek host now d = false /\
   negb (isSameDay host d now) && negb (isInThisWeek host now d) = false) \/
  (isSameDay host d now = false /\ isInThisWeek host now d = true /\
   negb (isSameDay host d now) && negb (isInThisWeek host now d) = false) \/
  (isSameDay host d now = false /\ isInThisWeek host now d = false /\
   negb (isSameDay host d now) && negb (isInThisWeek host now d) = true).
Proof.
  intro d. unfold isInThisWeek.
  destruct (isSameDay host d now); simpl.
  - left. rewrite andb_false_r. repeat split; reflexivity.
  - rewrite andb_true_r.
    destruct (num_ge d _ && num_le d _); simpl.
    + right. left. repeat split; reflexivity.
    + right. right. repeat split; reflexivity.
Qed.

(** X20. With one reference date [now] for the whole render, the views
    today, this week and other hold, together, every task of the list
    once for each time it occurs; every task of the list is in exactly
    one of them; and a task whose [new Date(dueDate)] passes the
    same-day test of the code against [now] is not in this week. *)
Theorem views_partition (host : Host) (now : JSDate) (collection : list Task.t) :
  Permutation
    (todayTasks host now collection ++ thisWeekTasks host now collection ++
     otherTasks host now now collection)
    collection /\
  (forall task, In task collection ->
     (In task (todayTasks host now collection) /\
      ~ In task (thisWeekTasks host now collection) /\
      ~ In task (otherTasks host now now collection)) \/
     (~ In task (todayTasks host now collection) /\
      In task (thisWeekTasks host now collection) /\
      ~ In task (otherTasks host now now collection)) \/
     (~ In task (todayTasks host now collection) /\
      ~ In task (thisWeekTasks host now collection) /\
      In task (otherTasks host now now collection))) /\
  (forall task,
     isSameDay host (Date_parse host (Task.dueDate task)) now = true ->
     ~ In task (thisWeekTasks host now collection)).
Proof.
  unfold todayTasks, thisWeekTasks, otherTasks. split; [| split].
  - apply filter3_Permutation. intros task _. apply (one_view_per_task host now task).
  - intros task Hin. rewrite !filter_In.
    destruct (one_view_per_task host now task) as [[Hp [Hq Hr]] | [[Hp [Hq Hr]] | [Hp [Hq Hr]]]];
      cbv zeta in Hp, Hq, Hr; rewrite Hp, Hq; simpl.
    + left. repeat split; try assumption; intros [_ F]; discriminate F.
    + right. left. repeat split; try assumption; intros [_ F]; discriminate F.
    + right. right. repeat split; try assumption; intros [_ F]; discriminate F.
  - intros task Hsame Hin. apply filter_In in Hin. destruct Hin as [_ Hweek].
    destruct (one_view_per_task host now task) as [[Hp [Hq Hr]] | [[Hp [Hq Hr]] | [Hp [Hq Hr]]]];
      cbv zeta in Hp, Hq; congruence.
Qed.

(** The scenario of the specification, on a host on UTC: Monday 10 June
    2024, noon. *)
Example views_scenario :
  let now := Some 1718020800000 in
  let report := Task.mk 2 "Write report" "2024-06-10" false in
  let trip := Task.mk 1 "Plan trip" "2024-06-14" false in
  todayTasks utcHost now [report; trip] = [report] /\
  thisWeekTasks utcHost now [report; trip] = [trip] /\
  otherTasks utcHost now now [report; trip] = [].
Proof. repeat split; vm_compute; reflexivity. Qed.

(** C2. Monday 10 June 2024, noon, on a host in Phoenix (UTC-7); a task
    due 2024-06-10.  The task is due on the day of [now], yet it is not
    in today and it is in this week: the date the views compare is
    [new Date(dueDate)], midnight UTC of the day typed, and west of UTC
    that is the evening before. *)
Theorem views_west_of_utc :
  let now := 1718020800000 + 7 * 3600000 in            (* Mon 10 Jun 2024, 12:00 in Phoenix *)
  let report := Task.mk 2 "Write report" "2024-06-10" false in
  toDateString phoenixHost (Some now) = "Mon Jun 10 2024" /\
  spec_dueDay (Task.dueDate report) = Some (Day (LocalTime phoenixHost now)) /\
  spec_dueOn phoenixHost now report = true /\
  toDateString phoenixHost (Date_parse phoenixHost "2024-06-10") = "Sun Jun 09 2024" /\
  todayTasks phoenixHost (Some now) [report] = [] /\
  thisWeekTasks phoenixHost (Some now) [report] = [report] /\
  otherTasks phoenixHost (Some now) (Some now) [report] = [].
Proof. repeat split; vm_compute; reflexivity. Qed.

(** East of UTC the date typed is tested as the day typed, and on UTC
    too: there the scenario of the specification comes out as it says. *)
Example views_east_of_utc :
  let now := 1718020800000 - 9 * 3600000 in            (* Mon 10 Jun 2024, 12:00 in Tokyo *)
  let report := Task.mk 2 "Write report" "2024-06-10" false in
  spec_dueOn jstHost now report = true /\
  todayTasks jstHost (Some now) [report] = [report] /\
  thisWeekTasks jstHost (Some now) [report] = [].
Proof. repeat split; vm_compute; reflexivity. Qed.

(** A render that reads the clock on both sides of midnight has two
    reference dates. *)
Example views_across_midnight :
  let today := Some (1718064000000 - 1) in             (* Mon 10 Jun 2024, 23:59:59.999 UTC *)
  let now := Some 1718064000000 in                     (* Tue 11 Jun 2024, 00:00:00.000 UTC *)
  let report := Task.mk 2 "Write report" "2024-06-10" false in
  todayTasks utcHost today [report] = [report] /\
  thisWeekTasks utcHost now [report] = [report] /\
  otherTasks utcHost today now [report] = [].
Proof. repeat split; vm_compute; reflexivity. Qed.

(* ------------------------------------------------------------------ *)
(** ** JSON: what [JSON.parse] makes of [JSON.stringify] *)

Lemma append_assoc (a b c : string) : (a ++ b) ++ c = a ++ (b ++ c).
Proof.
  induction a as [| x a IH]; simpl.
  - reflexivity.
  - rewrite IH. reflexivity.
Qed.

Lemma length_append (a b : string) :
  String.length (a ++ b) = (String.length a + String.length b)%nat.
Proof.
  induction a as [| x a IH]; simpl.
  - reflexivity.
  - rewrite IH. reflexivity.
Qed.

Lemma parseChars_escapeChar (c : ascii) (rest : string) :
  parseChars (escapeChar c ++ rest) = prepend (String c EmptyString) (parseChars rest).
Proof.
  destruct c as [[|] [|] [|] [|] [|] [|] [|] [|]]; reflexivity.
Qed.

Lemma parseChars_escape (s rest : string) :
  parseChars (escape s ++ String dquote rest) = Some (s, rest).
Proof.
  induction s as [| c s IH]; simpl.
  - reflexivity.
  - rewrite append_assoc, parseChars_escapeChar, IH. reflexivity.
Qed.

Lemma parseChars_quote (s rest : string) :
  parseChars (escape s ++ String dquote EmptyString ++ rest) = Some (s, rest).
Proof. apply parseChars_escape. Qed.

(** A string a number cannot run into: it starts with a comma. *)
Lemma readDigits_string_of_uint (u : Decimal.uint) (c : ascii) (rest : string) :
  digitOfChar c = None ->
  readDigits (NilEmpty.string_of_uint u ++ String c rest) = (u, String c rest).
Proof.
  intro Hc. induction u; simpl; try rewrite IHu; try reflexivity.
  rewrite Hc. reflexivity.
Qed.

Lemma to_uint_no_leading_zero (p : positive) :
  match Pos.to_uint p with
  | Decimal.Nil => False
  | Decimal.D0 _ => False
  | _ => True
  end.
Proof.
  pose proof (DecimalPos.Unsigned.to_of (Pos.to_uint p)) as H.
  rewrite DecimalPos.Unsigned.of_to in H. simpl in H.
  pose proof (DecimalPos.Unsigned.to_uint_nonzero p) as Hnz.
  destruct (Pos.to_uint p) as [| u | u | u | u | u | u | u | u | u | u] eqn:E;
    try exact I.
  - discriminate H.
  - unfold Decimal.unorm in H. rewrite DecimalFacts.nzhead_D0 in H.
    destruct (Decimal.nzhead u) eqn:En.
    + apply Hnz. exact H.
    + exact (DecimalFacts.nzhead_nonzero u _ En).
    + discriminate H. + discriminate H. + discriminate H. + discriminate H.
    + discriminate H. + discriminate H. + discriminate H. + discriminate H.
    + discriminate H.
Qed.



Lemma readSign_digits (neg : bool) (u : Decimal.uint) (rest : string) :
  u <> Decimal.Nil ->
  readSign ((if neg then "-" else "") ++ NilEmpty.string_of_uint u ++ rest)
  = (neg, NilEmpty.string_of_uint u ++ rest).
Proof.
  intro Hu. destruct neg; [reflexivity |].
  destruct u; try reflexivity. contradiction.
Qed.

Lemma parseNumber_digits (neg : bool) (u : Decimal.uint) (rest : string) :
  wellFormedInt u = true ->
  parseNumber ((if neg then "-" else "") ++ NilEmpty.string_of_uint u ++ String "," rest)
  = Some (inject_Z (negateIf neg (Z.of_uint u)), String "," rest).
Proof.
  intro Hu. unfold parseNumber.
  rewrite readSign_digits by (intro E; subst u; discriminate Hu).
  rewrite (readDigits_string_of_uint u "," rest eq_refl), Hu.
  reflexivity.
Qed.

Lemma to_uint_wellFormedInt (p : positive) : wellFormedInt (Pos.to_uint p) = true.
Proof.
  pose proof (to_uint_no_leading_zero p) as H.
  destruct (Pos.to_uint p); try contradiction; reflexivity.
Qed.

Lemma parseNumber_numberToString (z : Z) (rest : string) :
  parseNumber (numberToString z ++ String "," rest) = Some (inject_Z z, String "," rest).
Proof.
  unfold numberToString.
  pose proof (DecimalZ.of_to z) as Hz.
  destruct z as [| p | p].
  - reflexivity.
  - pose proof (parseNumber_digits false (Pos.to_uint p) rest (to_uint_wellFormedInt p)) as H.
    simpl in Hz. simpl negateIf in H. rewrite Hz in H. simpl Z.to_int.
    unfold NilZero.string_of_int, NilZero.string_of_uint.
    pose proof (DecimalPos.Unsigned.to_uint_nonnil p) as Hn.
    destruct (Pos.to_uint p); try contradiction; exact H.
  - pose proof (parseNumber_digits true (Pos.to_uint p) rest (to_uint_wellFormedInt p)) as H.
    simpl in Hz. simpl negateIf in H. rewrite Hz in H. simpl Z.to_int.
    unfold NilZero.string_of_int, NilZero.string_of_uint.
    pose proof (DecimalPos.Unsigned.to_uint_nonnil p) as Hn.
    destruct (Pos.to_uint p); try contradiction; exact H.
Qed.


(** *** One step of each parser on a known first character *)

(** *** One step of each parser *)

Lemma parseValue_S (f : nat) :
  parseValue (S f) = valueStep (parseMembers f) (parseElements f).
Proof. reflexivity. Qed.

Lemma parseElements_S (f : nat) :
  parseElements (S f) = elementsStep (parseValue f) (parseElements f).
Proof. reflexivity. Qed.

Lemma parseMembers_S (f : nat) :
  parseMembers (S f) = membersStep (parseValue f) (parseMembers f).
Proof. reflexivity. Qed.

Lemma parseValue_string (f : nat) (s rest : string) :
  parseValue (S f) (QuoteJSONString s ++ rest) = Some (JStr s, rest).
Proof.
  unfold QuoteJSONString. simpl append. rewrite append_assoc. simpl append.
  rewrite parseValue_S. unfold valueStep. simpl skipWhiteSpace. simpl Ascii.eqb. cbv iota.
  rewrite parseChars_escape. reflexivity.
Qed.

Lemma parseValue_numberStart (f : nat) (c : ascii) (r : string) :
  isNumberStart c = true ->
  parseValue (S f) (String c r) =
  match parseNumber (String c r) with
  | Some (q, rest) => Some (JNum q, rest)
  | None => None
  end.
Proof.
  destruct c as [[|] [|] [|] [|] [|] [|] [|] [|]]; intro H;
    try discriminate H; reflexivity.
Qed.

Lemma numberToString_start (z : Z) :
  exists c r, numberToString z = String c r /\ isNumberStart c = true.
Proof.
  unfold numberToString. destruct z as [| p | p]; simpl.
  - eexists. eexists. split; reflexivity.
  - pose proof (DecimalPos.Unsigned.to_uint_nonnil p) as Hn.
    unfold NilZero.string_of_uint.
    destruct (Pos.to_uint p); try contradiction;
      eexists; eexists; split; reflexivity.
  - eexists. eexists. split; reflexivity.
Qed.

Lemma parseValue_number (f : nat) (z : Z) (rest : string) :
  parseValue (S f) (numberToString z ++ String "," rest)
  = Some (JNum (inject_Z z), String "," rest).
Proof.
  destruct (numberToString_start z) as [c [r [E Hc]]].
  pose proof (parseNumber_numberToString z rest) as H.
  rewrite E in *. simpl append in *.
  rewrite (parseValue_numberStart f c _ Hc), H. reflexivity.
Qed.

Lemma parseValue_bool (f : nat) (b : bool) (rest : string) :
  parseValue (S f) ((if b then "true" else "false") ++ rest) = Some (JBool b, rest).
Proof. destruct b; reflexivity. Qed.

(** A member that is followed by another one, and the last member. *)
Lemma parseMembers_more (f : nat) (k text : string) (v : JSValue) (more : string) :
  parseValue f (text ++ String "," more) = Some (v, String "," more) ->
  parseMembers (S f) (QuoteJSONString k ++ String ":" (text ++ String "," more)) =
  match parseMembers f more with
  | Some (ms, rest) => Some ((k, v) :: ms, rest)
  | None => None
  end.
Proof.
  intro Hv. unfold QuoteJSONString. simpl append. rewrite append_assoc. simpl append.
  rewrite parseMembers_S. unfold membersStep. simpl skipWhiteSpace. simpl Ascii.eqb. cbv iota.
  rewrite parseChars_escape. simpl skipWhiteSpace. simpl Ascii.eqb. cbv iota.
  rewrite Hv. reflexivity.
Qed.

Lemma parseMembers_last (f : nat) (k text : string) (v : JSValue) (rest : string) :
  parseValue f (text ++ String "}" rest) = Some (v, String "}" rest) ->
  parseMembers (S f) (QuoteJSONString k ++ String ":" (text ++ String "}" rest)) =
  Some ([(k, v)], rest).
Proof.
  intro Hv. unfold QuoteJSONString. simpl append. rewrite append_assoc. simpl append.
  rewrite parseMembers_S. unfold membersStep. simpl skipWhiteSpace. simpl Ascii.eqb. cbv iota.
  rewrite parseChars_escape. simpl skipWhiteSpace. simpl Ascii.eqb. cbv iota.
  rewrite Hv. reflexivity.
Qed.

Lemma stringifyTask_shape (task : Task.t) (rest : string) :
  stringifyTask task ++ rest =
  String "{"
    (QuoteJSONString "id" ++ String ":" (numberToString (Task.id task) ++ String ","
    (QuoteJSONString "title" ++ String ":" (QuoteJSONString (Task.title task) ++ String ","
    (QuoteJSONString "dueDate" ++ String ":" (QuoteJSONString (Task.dueDate task) ++ String ","
    (QuoteJSONString "isDone" ++ String ":"
       ((if Task.isDone task then "true" else "false") ++ String "}" rest)))))))).
Proof.
  unfold stringifyTask. rewrite !append_assoc. reflexivity.
Qed.

Lemma parseValue_task (f : nat) (task : Task.t) (rest : string) :
  parseValue (S (S (S (S (S (S f)))))) (stringifyTask task ++ rest)
  = Some (taskValue task, rest).
Proof.
  rewrite stringifyTask_shape.
  set (members := QuoteJSONString "id" ++ _).
  assert (E : parseValue (S (S (S (S (S (S f)))))) (String "{" members)
              = match parseMembers (S (S (S (S (S f))))) members with
                | Some (ms, rest') => Some (makeObject ms, rest')
                | None => None
                end) by reflexivity.
  rewrite E. unfold members.
  rewrite (parseMembers_more _ _ _ _ _ (parseValue_number _ _ _)).
  rewrite (parseMembers_more _ _ _ _ _ (parseValue_string _ _ _)).
  rewrite (parseMembers_more _ _ _ _ _ (parseValue_string _ _ _)).
  rewrite (parseMembers_last _ _ _ _ _ (parseValue_bool _ _ _)).
  reflexivity.
Qed.

Lemma stringifyTask_starts (task : Task.t) (rest : string) :
  exists r, stringifyTask task ++ rest = String "{" (String dquote r).
Proof. rewrite stringifyTask_shape. eexists. reflexivity. Qed.

Lemma parseElements_tasks (collection : list Task.t) (f : nat) (rest : string) :
  collection <> [] ->
  (List.length collection + 6 <= f)%nat ->
  parseElements f (joinTasks collection ++ String "]" rest)
  = Some (map taskValue collection, rest).
Proof.
  revert f. induction collection as [| task l IH]; intros f Hne Hf.
  - contradiction.
  - destruct f as [| f]; [simpl in Hf; lia |].
    destruct l as [| task' l'].
    + simpl joinTasks. simpl in Hf.
      do 6 (destruct f as [| f]; [lia |]).
      rewrite parseElements_S. unfold elementsStep.
      rewrite parseValue_task. reflexivity.
    + assert (E : joinTasks (task :: task' :: l') ++ String "]" rest
                  = stringifyTask task ++ String "," (joinTasks (task' :: l') ++ String "]" rest)).
      { change (joinTasks (task :: task' :: l'))
          with (stringifyTask task ++ "," ++ joinTasks (task' :: l')).
        rewrite !append_assoc. reflexivity. }
      rewrite E. simpl List.length in Hf.
      do 6 (destruct f as [| f]; [lia |]).
      rewrite parseElements_S. unfold elementsStep.
      rewrite parseValue_task. simpl skipWhiteSpace. simpl Ascii.eqb. cbv iota.
      rewrite IH; [reflexivity | discriminate | simpl List.length; lia].
Qed.

Lemma joinTasks_length (collection : list Task.t) :
  (2 * List.length collection <= String.length (joinTasks collection))%nat.
Proof.
  assert (Ht : forall task, (2 <= String.length (stringifyTask task))%nat).
  { intro task. destruct (stringifyTask_starts task "") as [r E].
    assert (E' : stringifyTask task = stringifyTask task ++ "").
    { clear. induction (stringifyTask task) as [| c s IH]; simpl; [| rewrite <- IH]; reflexivity. }
    rewrite E', E. simpl. lia. }
  induction collection as [| task l IH].
  - simpl. lia.
  - destruct l as [| task' l'].
    + simpl. pose proof (Ht task). lia.
    + change (joinTasks (task :: task' :: l'))
        with (stringifyTask task ++ "," ++ joinTasks (task' :: l')).
      rewrite !length_append. pose proof (Ht task).
      change (String.length ",") with 1%nat.
      cbn [List.length] in *. lia.
Qed.

Lemma JSON_roundtrip (collection : list Task.t) :
  JSON_parse (JSON_stringify collection) = Ok (tasksValue collection).
Proof.
  destruct collection as [| task l].
  - reflexivity.
  - unfold JSON_parse, JSON_stringify, tasksValue.
    set (c := task :: l).
    assert (Hlen : (List.length c + 7 <= 2 * String.length ("[" ++ joinTasks c ++ "]"))%nat).
    { change ("[" ++ joinTasks c ++ "]") with (String "[" (joinTasks c ++ "]")).
      cbn [String.length]. rewrite length_append.
      change (String.length "]") with 1%nat.
      pose proof (joinTasks_length c).
      assert (1 <= List.length c)%nat by (unfold c; cbn [List.length]; lia). lia. }
    destruct (2 * String.length ("[" ++ joinTasks c ++ "]"))%nat as [| f] eqn:Ef; [lia |].
    destruct (stringifyTask_starts task
                (match l with [] => "" | _ => "," ++ joinTasks l end ++ "]")) as [r Er].
    assert (Ej : joinTasks c ++ "]" = String "{" (String dquote r)).
    { rewrite <- Er. unfold c. destruct l as [| task' l'].
      - reflexivity.
      - change (joinTasks (task :: task' :: l'))
          with (stringifyTask task ++ "," ++ joinTasks (task' :: l')).
        rewrite !append_assoc. reflexivity. }
    pose proof (parseElements_tasks c f "" ltac:(discriminate) ltac:(lia)) as He.
    change ("[" ++ joinTasks c ++ "]") with (String "[" (joinTasks c ++ "]")).
    rewrite Ej in *.
    assert (E : parseValue (S f) (String "[" (String "{" (String dquote r)))
                = match parseElements f (String "{" (String dquote r)) with
                  | Some (vs, rest) => Some (JArr vs, rest)
                  | None => None
                  end) by reflexivity.
    rewrite E, He. reflexivity.
Qed.

(* ------------------------------------------------------------------ *)
(** ** JSON: the fuel is never what makes [JSON_parse] throw *)

Lemma valueStep_mono (m m' : MembersParser) (e e' : ElementsParser) :
  extends m m' -> extends e e' -> extends (valueStep m e) (valueStep m' e').
Proof.
  intros Hm He s res H. unfold valueStep in *.
  destruct (skipWhiteSpace s) as [| c r]; [discriminate H |].
  destruct (Ascii.eqb c "{").
  - destruct (skipWhiteSpace r) as [| c' r']; [discriminate H |].
    destruct (Ascii.eqb c' "}"); [exact H |].
    destruct (m r) as [[ms rest] |] eqn:E; [| discriminate H].
    rewrite (Hm _ _ E). exact H.
  - destruct (Ascii.eqb c "[").
    + destruct (skipWhiteSpace r) as [| c' r']; [discriminate H |].
      destruct (Ascii.eqb c' "]"); [exact H |].
      destruct (e r) as [[vs rest] |] eqn:E; [| discriminate H].
      rewrite (He _ _ E). exact H.
    + exact H.
Qed.

Lemma elementsStep_mono (v v' : ValueParser) (e e' : ElementsParser) :
  extends v v' -> extends e e' -> extends (elementsStep v e) (elementsStep v' e').
Proof.
  intros Hv He s res H. unfold elementsStep in *.
  destruct (v s) as [[x r] |] eqn:E; [| discriminate H].
  rewrite (Hv _ _ E).
  destruct (skipWhiteSpace r) as [| c r']; [discriminate H |].
  destruct (Ascii.eqb c ","); [| exact H].
  destruct (e r') as [[vs rest] |] eqn:E'; [| discriminate H].
  rewrite (He _ _ E'). exact H.
Qed.

Lemma membersStep_mono (v v' : ValueParser) (m m' : MembersParser) :
  extends v v' -> extends m m' -> extends (membersStep v m) (membersStep v' m').
Proof.
  intros Hv Hm s res H. unfold membersStep in *.
  destruct (skipWhiteSpace s) as [| c r]; [discriminate H |].
  destruct (Ascii.eqb c dquote); [| discriminate H].
  destruct (parseChars r) as [[k r1] |]; [| discriminate H].
  destruct (skipWhiteSpace r1) as [| c1 r2]; [discriminate H |].
  destruct (Ascii.eqb c1 ":"); [| discriminate H].
  destruct (v r2) as [[x r3] |] eqn:E; [| discriminate H].
  rewrite (Hv _ _ E).
  destruct (skipWhiteSpace r3) as [| c2 r4]; [discriminate H |].
  destruct (Ascii.eqb c2 ","); [| exact H].
  destruct (m r4) as [[ms rest] |] eqn:E'; [| discriminate H].
  rewrite (Hm _ _ E'). exact H.
Qed.

Lemma parse_fuel_succ (n : nat) :
  extends (parseValue n) (parseValue (S n)) /\
  extends (parseElements n) (parseElements (S n)) /\
  extends (parseMembers n) (parseMembers (S n)).
Proof.
  induction n as [| n [IHv [IHe IHm]]].
  - repeat split; intros s r H; discriminate H.
  - split; [| split].
    + rewrite (parseValue_S (S n)), (parseValue_S n). apply valueStep_mono; assumption.
    + rewrite (parseElements_S (S n)), (parseElements_S n). apply elementsStep_mono; assumption.
    + rewrite (parseMembers_S (S n)), (parseMembers_S n). apply membersStep_mono; assumption.
Qed.

Lemma parse_fuel_le (n m : nat) :
  (n <= m)%nat ->
  extends (parseValue n) (parseValue m) /\
  extends (parseElements n) (parseElements m) /\
  extends (parseMembers n) (parseMembers m).
Proof.
  induction 1 as [| m Hle [IHv [IHe IHm]]].
  - repeat split; intros s r H; exact H.
  - destruct (parse_fuel_succ m) as [Sv [Se Sm]].
    repeat split; intros s r H.
    + apply Sv, IHv, H.
    + apply Se, IHe, H.
    + apply Sm, IHm, H.
Qed.

Lemma skipWhiteSpace_length (s : string) :
  (String.length (skipWhiteSpace s) <= String.length s)%nat.
Proof.
  induction s as [| c s IH]; simpl.
  - lia.
  - destruct (isWhiteSpace c); simpl; lia.
Qed.

Lemma skipWhiteSpace_shorter (s : string) (c : ascii) (r : string) :
  skipWhiteSpace s = String c r -> (String.length r < String.length s)%nat.
Proof.
  intro H. pose proof (skipWhiteSpace_length s) as L. rewrite H in L. simpl in L. lia.
Qed.

Lemma prepend_inv (p : string) (x : option (string * string)) (str r : string) :
  prepend p x = Some (str, r) -> exists str', x = Some (str', r).
Proof.
  destruct x as [[str' r'] |]; simpl; intro H; [| discriminate H].
  injection H as _ H. subst r'. exists str'. reflexivity.
Qed.

Lemma parseChars_shorter_upto (n : nat) (s str r : string) :
  (String.length s <= n)%nat ->
  parseChars s = Some (str, r) ->
  (String.length r < String.length s)%nat.
Proof.
  revert s str r. induction n as [| n IH]; intros s str r Hn H.
  - destruct s; [discriminate H | simpl in Hn; lia].
  - destruct s as [| c r0]; [discriminate H |].
    simpl in Hn. cbn [parseChars] in H.
    assert (Hrec : forall x, (String.length x <= String.length r0)%nat ->
                   forall p, prepend p (parseChars x) = Some (str, r) ->
                   (String.length r < String.length (String c r0))%nat).
    { intros x Hx p Hp. apply prepend_inv in Hp. destruct Hp as [str' Hp].
      apply IH in Hp; [| lia]. simpl. lia. }
    destruct (Ascii.eqb c dquote).
    { injection H as _ H. subst r. simpl. lia. }
    destruct (Ascii.eqb c backslash).
    2:{ destruct (N_of_ascii c <? 32)%N; [discriminate H |].
        apply (Hrec r0 (le_n _) _ H). }
    destruct r0 as [| e r1]; [discriminate H |].
    destruct (simpleEscape e).
    { apply (Hrec r1) in H; [exact H | simpl; lia]. }
    destruct (Ascii.eqb e "u"); [| discriminate H].
    destruct r1 as [| h1 [| h2 [| h3 [| h4 r2]]]]; try discriminate H.
    destruct (hex4 h1 h2 h3 h4) as [hi |]; [| discriminate H].
    destruct (isHighSurrogate hi).
    2:{ apply (Hrec r2) in H; [exact H | simpl; lia]. }
    destruct r2 as [| b2 [| u2 [| l1 [| l2 [| l3 [| l4 r3]]]]]];
      try (apply (Hrec _) in H; [exact H | simpl; lia]).
    destruct (hex4 l1 l2 l3 l4) as [lo |].
    2:{ apply (Hrec _) in H; [exact H | simpl; lia]. }
    destruct (Ascii.eqb b2 backslash && Ascii.eqb u2 "u" && isLowSurrogate lo);
      apply (Hrec _) in H; try exact H; simpl; lia.
Qed.

Lemma parseChars_shorter (s str r : string) :
  parseChars s = Some (str, r) -> (String.length r < String.length s)%nat.
Proof. apply (parseChars_shorter_upto (String.length s)). lia. Qed.

Lemma readDigits_length (s : string) :
  (String.length (snd (readDigits s)) <= String.length s)%nat.
Proof.
  induction s as [| c s IH]; simpl.
  - lia.
  - destruct (digitOfChar c) as [dg |]; [| simpl; lia].
    destruct (readDigits s) as [u rest]. simpl in *. lia.
Qed.

Lemma readDigits_shorter (s : string) :
  fst (readDigits s) <> Decimal.Nil ->
  (String.length (snd (readDigits s)) < String.length s)%nat.
Proof.
  destruct s as [| c s]; simpl.
  - intro H. contradiction.
  - destruct (digitOfChar c) as [dg |].
    + intros _. pose proof (readDigits_length s) as L.
      destruct (readDigits s) as [u rest]. simpl in *. lia.
    + simpl. intro H. contradiction.
Qed.

Lemma readSign_length (s : string) :
  (String.length (snd (readSign s)) <= String.length s)%nat.
Proof.
  destruct s as [| c s]; simpl; [lia |].
  destruct (Ascii.eqb c "-"); simpl; lia.
Qed.

Lemma readFraction_length (s : string) :
  (String.length (snd (readFraction s)) <= String.length s)%nat.
Proof.
  destruct s as [| c s]; simpl; [lia |].
  destruct (Ascii.eqb c "."); [| simpl; lia].
  pose proof (readDigits_length s) as L.
  destruct (readDigits s) as [u rest]. simpl in *. lia.
Qed.

Lemma readExponent_length (s : string) :
  (String.length (snd (readExponent s)) <= String.length s)%nat.
Proof.
  destruct s as [| c s]; simpl; [lia |].
  destruct (Ascii.eqb c "e" || Ascii.eqb c "E"); [| simpl; lia].
  destruct s as [| c' s']; simpl; [lia |].
  destruct (Ascii.eqb c' "-").
  - pose proof (readDigits_length s') as L.
    destruct (readDigits s') as [u rest]. simpl in *. lia.
  - destruct (Ascii.eqb c' "+").
    + pose proof (readDigits_length s') as L.
      destruct (readDigits s') as [u rest]. simpl in *. lia.
    + pose proof (readDigits_length (String c' s')) as L.
      destruct (readDigits (String c' s')) as [u rest]. simpl in *. lia.
Qed.

Lemma parseNumber_shorter (s : string) (q : Q) (r : string) :
  parseNumber s = Some (q, r) -> (String.length r < String.length s)%nat.
Proof.
  unfold parseNumber. intro H.
  pose proof (readSign_length s) as L1.
  destruct (readSign s) as [neg s1]. simpl in L1.
  pose proof (readDigits_shorter s1) as L2.
  destruct (readDigits s1) as [int s2]. simpl in L2.
  destruct (wellFormedInt int) eqn:W; [| discriminate H].
  assert (Hint : int <> Decimal.Nil) by (intro E; subst int; discriminate W).
  specialize (L2 Hint).
  pose proof (readFraction_length s2) as L3.
  destruct (readFraction s2) as [frac s3]. simpl in L3.
  pose proof (readExponent_length s3) as L4.
  destruct (readExponent s3) as [exp s4]. simpl in L4.
  destruct (numberValue neg int frac exp); [| discriminate H].
  injection H as _ H. subst r. lia.
Qed.

Lemma afterWord_length (w s r : string) :
  afterWord w s = Some r -> (String.length r <= String.length s)%nat.
Proof.
  revert s. induction w as [| a w IH]; intros s H; simpl in H.
  - injection H as H. subst r. lia.
  - destruct s as [| b s]; [discriminate H |].
    destruct (Ascii.eqb a b); [| discriminate H].
    apply IH in H. simpl. lia.
Qed.

Lemma valueStep_consuming (m : MembersParser) (e : ElementsParser) :
  consuming m -> consuming e -> consuming (valueStep m e).
Proof.
  intros Hm He s v rest H. unfold valueStep in H.
  destruct (skipWhiteSpace s) as [| c r] eqn:Hs; [discriminate H |].
  pose proof (skipWhiteSpace_shorter _ _ _ Hs) as L.
  destruct (Ascii.eqb c "{").
  { destruct (skipWhiteSpace r) as [| c' r'] eqn:Hr; [discriminate H |].
    pose proof (skipWhiteSpace_shorter _ _ _ Hr) as L'.
    destruct (Ascii.eqb c' "}").
    - injection H as _ H. subst rest. lia.
    - destruct (m r) as [[ms rest'] |] eqn:E; [| discriminate H].
      injection H as _ H. subst rest'. apply Hm in E. lia. }
  destruct (Ascii.eqb c "[").
  { destruct (skipWhiteSpace r) as [| c' r'] eqn:Hr; [discriminate H |].
    pose proof (skipWhiteSpace_shorter _ _ _ Hr) as L'.
    destruct (Ascii.eqb c' "]").
    - injection H as _ H. subst rest. lia.
    - destruct (e r) as [[vs rest'] |] eqn:E; [| discriminate H].
      injection H as _ H. subst rest'. apply He in E. lia. }
  destruct (Ascii.eqb c dquote).
  { destruct (parseChars r) as [[str rest'] |] eqn:E; [| discriminate H].
    injection H as _ H. subst rest'. apply parseChars_shorter in E. lia. }
  destruct (Ascii.eqb c "t").
  { destruct (afterWord "rue" r) as [rest' |] eqn:E; [| discriminate H].
    injection H as _ H. subst rest'. apply afterWord_length in E. lia. }
  destruct (Ascii.eqb c "f").
  { destruct (afterWord "alse" r) as [rest' |] eqn:E; [| discriminate H].
    injection H as _ H. subst rest'. apply afterWord_length in E. lia. }
  destruct (Ascii.eqb c "n").
  { destruct (afterWord "ull" r) as [rest' |] eqn:E; [| discriminate H].
    injection H as _ H. subst rest'. apply afterWord_length in E. lia. }
  destruct (isNumberStart c); [| discriminate H].
  destruct (parseNumber (String c r)) as [[q rest'] |] eqn:E; [| discriminate H].
  injection H as _ H. subst rest'. apply parseNumber_shorter in E. simpl in E. lia.
Qed.

Lemma elementsStep_consuming (v : ValueParser) (e : ElementsParser) :
  consuming v -> consuming e -> consuming (elementsStep v e).
Proof.
  intros Hv He s vs rest H. unfold elementsStep in H.
  destruct (v s) as [[x r] |] eqn:E; [| discriminate H].
  apply Hv in E.
  destruct (skipWhiteSpace r) as [| c r'] eqn:Hr; [discriminate H |].
  pose proof (skipWhiteSpace_shorter _ _ _ Hr) as L.
  destruct (Ascii.eqb c ",").
  - destruct (e r') as [[vs' rest'] |] eqn:E'; [| discriminate H].
    injection H as _ H. subst rest'. apply He in E'. lia.
  - destruct (Ascii.eqb c "]"); [| discriminate H].
    injection H as _ H. subst rest. lia.
Qed.

Lemma membersStep_consuming (v : ValueParser) (m : MembersParser) :
  consuming v -> consuming m -> consuming (membersStep v m).
Proof.
  intros Hv Hm s ms rest H. unfold membersStep in H.
  destruct (skipWhiteSpace s) as [| c r] eqn:Hs; [discriminate H |].
  pose proof (skipWhiteSpace_shorter _ _ _ Hs) as L.
  destruct (Ascii.eqb c dquote); [| discriminate H].
  destruct (parseChars r) as [[k r1] |] eqn:Ek; [| discriminate H].
  apply parseChars_shorter in Ek.
  destruct (skipWhiteSpace r1) as [| c1 r2] eqn:H1; [discriminate H |].
  pose proof (skipWhiteSpace_shorter _ _ _ H1) as L1.
  destruct (Ascii.eqb c1 ":"); [| discriminate H].
  destruct (v r2) as [[x r3] |] eqn:E; [| discriminate H].
  apply Hv in E.
  destruct (skipWhiteSpace r3) as [| c2 r4] eqn:H3; [discriminate H |].
  pose proof (skipWhiteSpace_shorter _ _ _ H3) as L3.
  destruct (Ascii.eqb c2 ",").
  - destruct (m r4) as [[ms' rest'] |] eqn:E'; [| discriminate H].
    injection H as _ H. subst rest'. apply Hm in E'. lia.
  - destruct (Ascii.eqb c2 "}"); [| discriminate H].
    injection H as _ H. subst rest. lia.
Qed.

Lemma parse_consuming (n : nat) :
  consuming (parseValue n) /\ consuming (parseElements n) /\ consuming (parseMembers n).
Proof.
  induction n as [| n [IHv [IHe IHm]]].
  - repeat split; intros s a r H; discriminate H.
  - split; [| split].
    + rewrite parseValue_S. apply valueStep_consuming; assumption.
    + rewrite parseElements_S. apply elementsStep_consuming; assumption.
    + rewrite parseMembers_S. apply membersStep_consuming; assumption.
Qed.

Lemma parse_frugal (n : nat) :
  frugal parseValue n /\ frugal parseElements n /\ frugal parseMembers n.
Proof.
  induction n as [| n [IHv [IHe IHm]]].
  - repeat split; intros s a r H; discriminate H.
  - destruct (parse_consuming n) as [Cv [Ce Cm]].
    split; [| split]; intros s a rest H.
    + pose proof (proj1 (parse_consuming (S n)) _ _ _ H) as Lt.
      destruct (2 * (String.length s - String.length rest))%nat as [| k] eqn:Ek; [lia |].
      rewrite parseValue_S in *. unfold valueStep in *.
      destruct (skipWhiteSpace s) as [| c r] eqn:Hs; [discriminate H |].
      pose proof (skipWhiteSpace_shorter _ _ _ Hs) as L.
      destruct (Ascii.eqb c "{").
      { destruct (skipWhiteSpace r) as [| c' r'] eqn:Hr; [discriminate H |].
        destruct (Ascii.eqb c' "}"); [exact H |].
        destruct (parseMembers n r) as [[ms rest'] |] eqn:E; [| discriminate H].
        assert (rest' = rest) by (injection H as _ H; exact H). subst rest'.
        pose proof (Cm _ _ _ E) as Lm. apply IHm in E.
        more_fuel parse_fuel_le E k.
        rewrite E. exact H. }
      destruct (Ascii.eqb c "[").
      { destruct (skipWhiteSpace r) as [| c' r'] eqn:Hr; [discriminate H |].
        destruct (Ascii.eqb c' "]"); [exact H |].
        destruct (parseElements n r) as [[vs rest'] |] eqn:E; [| discriminate H].
        assert (rest' = rest) by (injection H as _ H; exact H). subst rest'.
        pose proof (Ce _ _ _ E) as Lm. apply IHe in E.
        more_fuel parse_fuel_le E k.
        rewrite E. exact H. }
      exact H.
    + pose proof (proj1 (proj2 (parse_consuming (S n))) _ _ _ H) as Lt.
      destruct (2 * (String.length s - String.length rest))%nat as [| k] eqn:Ek; [lia |].
      rewrite parseElements_S in *. unfold elementsStep in *.
      destruct (parseValue n s) as [[x r] |] eqn:E; [| discriminate H].
      pose proof (Cv _ _ _ E) as Lv. apply IHv in E.
      destruct (skipWhiteSpace r) as [| c r'] eqn:Hr; [discriminate H |].
      pose proof (skipWhiteSpace_shorter _ _ _ Hr) as L.
      destruct (Ascii.eqb c ",") eqn:Ec.
      * destruct (parseElements n r') as [[vs rest'] |] eqn:E'; [| discriminate H].
        assert (rest' = rest) by (injection H as _ H; exact H). subst rest'.
        pose proof (Ce _ _ _ E') as Le. apply IHe in E'.
        more_fuel parse_fuel_le E k.
        more_fuel parse_fuel_le E' k.
        rewrite E, Hr, Ec, E'. exact H.
      * destruct (Ascii.eqb c "]") eqn:Ec'; [| discriminate H].
        assert (r' = rest) by (injection H as _ H; exact H). subst r'.
        more_fuel parse_fuel_le E k.
        rewrite E, Hr, Ec, Ec'. exact H.
    + pose proof (proj2 (proj2 (parse_consuming (S n))) _ _ _ H) as Lt.
      destruct (2 * (String.length s - String.length rest))%nat as [| k] eqn:Ek; [lia |].
      rewrite parseMembers_S in *. unfold membersStep in *.
      destruct (skipWhiteSpace s) as [| c r] eqn:Hs; [discriminate H |].
      pose proof (skipWhiteSpace_shorter _ _ _ Hs) as L.
      destruct (Ascii.eqb c dquote); [| discriminate H].
      destruct (parseChars r) as [[key r1] |] eqn:Ek'; [| discriminate H].
      pose proof (parseChars_shorter _ _ _ Ek') as Lk.
      destruct (skipWhiteSpace r1) as [| c1 r2] eqn:H1; [discriminate H |].
      pose proof (skipWhiteSpace_shorter _ _ _ H1) as L1.
      destruct (Ascii.eqb c1 ":"); [| discriminate H].
      destruct (parseValue n r2) as [[x r3] |] eqn:E; [| discriminate H].
      pose proof (Cv _ _ _ E) as Lv. apply IHv in E.
      destruct (skipWhiteSpace r3) as [| c2 r4] eqn:H3; [discriminate H |].
      pose proof (skipWhiteSpace_shorter _ _ _ H3) as L3.
      destruct (Ascii.eqb c2 ",") eqn:Ec.
      * destruct (parseMembers n r4) as [[ms rest'] |] eqn:E'; [| discriminate H].
        assert (rest' = rest) by (injection H as _ H; exact H). subst rest'.
        pose proof (Cm _ _ _ E') as Lm. apply IHm in E'.
        more_fuel parse_fuel_le E k.
        more_fuel parse_fuel_le E' k.
        rewrite E, H3, Ec, E'. exact H.
      * destruct (Ascii.eqb c2 "}") eqn:Ec'; [| discriminate H].
        assert (r4 = rest) by (injection H as _ H; exact H). subst r4.
        more_fuel parse_fuel_le E k.
        rewrite E, H3, Ec, Ec'. exact H.
Qed.

(** Whatever some amount of fuel parses, [JSON_parse] parses: the fuel
    it gives is never what makes it throw. *)
Lemma parseValue_fuel_enough (n : nat) (text : string) (v : JSValue) (rest : string) :
  parseValue n text = Some (v, rest) ->
  parseValue (2 * String.length text) text = Some (v, rest).
Proof.
  intro H. apply (proj1 (parse_frugal n)) in H.
  more_fuel parse_fuel_le H (2 * String.length text)%nat. exact H.
Qed.

Lemma JSON_parse_complete (n : nat) (text : string) (v : JSValue) (rest : string) :
  parseValue n text = Some (v, rest) ->
  skipWhiteSpace rest = EmptyString ->
  JSON_parse text = Ok v.
Proof.
  intros H Hr. unfold JSON_parse.
  rewrite (parseValue_fuel_enough n text v rest H), Hr. reflexivity.
Qed.

Corollary JSON_parse_throws_on_bad_text_only (text : string) (e : Exception) :
  JSON_parse text = Throw e ->
  forall n v rest, parseValue n text = Some (v, rest) -> skipWhiteSpace rest <> EmptyString.
Proof.
  intros H n v rest Hp Hr. rewrite (JSON_parse_complete n text v rest Hp Hr) in H.
  discriminate H.
Qed.

(* ------------------------------------------------------------------ *)
(** ** The persistence slot *)

Example JSON_parse_samples :
  JSON_parse (jsonText "[1,2]") = Ok (JArr [JNum (inject_Z 1); JNum (inject_Z 2)]) /\
  JSON_parse (jsonText " { 'a' : [true, false, null] , 'b' : 'x\ny' , 'a' : -7 } ")
    = Ok (JObj [("a", JNum (inject_Z (-7)));
                ("b", JStr (String "x" (String (ascii_of_nat 10) "y")))]) /\
  JSON_parse (jsonText "'タスク 🚮'") = Ok (JStr "タスク 🚮") /\
  JSON_parse "1e2" = JSON_parse "100" /\
  JSON_parse "0.50" = Ok (JNum (1 # 2)) /\
  JSON_parse "" = Throw SyntaxError /\
  JSON_parse "01" = Throw SyntaxError /\
  JSON_parse "1." = Throw SyntaxError /\
  JSON_parse "[1,]" = Throw SyntaxError /\
  JSON_parse (jsonText "{'a':1,}") = Throw SyntaxError /\
  JSON_parse (jsonText "{a:1}") = Throw SyntaxError /\
  JSON_parse "nul" = Throw SyntaxError /\
  JSON_parse "42 x" = Throw SyntaxError /\
  JSON_parse (jsonText "'open") = Throw SyntaxError.
Proof. repeat split; vm_compute; reflexivity. Qed.

Example JSON_stringify_sample :
  JSON_stringify [Task.mk 1718000000000 (jsonText "say 'hi'") "2024-06-10" false;
                  Task.mk 7 (String (ascii_of_nat 9) "タ") "2024-06-11" true]
  = jsonText ("[{'id':1718000000000,'title':'say \'hi\'','dueDate':'2024-06-10','isDone':false}," ++
              "{'id':7,'title':'\tタ','dueDate':'2024-06-11','isDone':true}]").
Proof. vm_compute. reflexivity. Qed.

Lemma JSON_stringify_truthy (collection : list Task.t) :
  falsy (JSON_stringify collection) = false.
Proof. reflexivity. Qed.

(** C4. When [save] has stored a list without throwing, [load] on the
    storage it leaves returns that list: the array of the tasks, each
    with its id, title, due date and flag. *)
Theorem save_then_load (ls ls' : Storage) (collection : list Task.t) :
  save ls collection = Ok ls' ->
  load ls' = Ok (tasksValue collection).
Proof.
  unfold save, setItem. intro H.
  destruct (denied ls) eqn:Hd; [discriminate H |].
  destruct (quota ls "tasks" (JSON_stringify collection)); [discriminate H |].
  injection H as H. subst ls'.
  unfold load, getItem. cbn [denied items].
  cbn [bind]. rewrite String.eqb_refl.
  unfold truthy. rewrite JSON_stringify_truthy. cbn [negb].
  rewrite JSON_roundtrip. reflexivity.
Qed.

Lemma save_then_load_witness :
  exists ls',
    save (storing None) sampleTasks = Ok ls' /\
    load ls' = Ok (tasksValue sampleTasks).
Proof.
  eexists. split.
  - reflexivity.
  - apply (save_then_load (storing None)). reflexivity.
Defined.

(** The wrong shapes [load] hands on as they are. *)
Example load_wrong_shapes :
  load (storing (Some "42")) = Ok (JNum (inject_Z 42)) /\
  load (storing (Some "null")) = Ok JNull /\
  load (storing (Some "true")) = Ok (JBool true) /\
  load (storing (Some (jsonText "'tasks'"))) = Ok (JStr "tasks") /\
  load (storing (Some "[1,2]")) = Ok (JArr [JNum (inject_Z 1); JNum (inject_Z 2)]) /\
  load (storing (Some (jsonText "[{'id':'x'}]"))) = Ok (JArr [JObj [("id", JStr "x")]]).
Proof. repeat split; vm_compute; reflexivity. Qed.

(** C5 as stated fails: the stored text is an object, not an array of
    task records, and [load] returns the object, not the empty list. *)
Lemma load_returns_wrong_shape :
  (forall collection,
     JSON_parse (jsonText "{'id':1}") <> Ok (tasksValue collection)) /\
  load (storing (Some (jsonText "{'id':1}"))) = Ok (JObj [("id", JNum (inject_Z 1))]) /\
  load (storing (Some (jsonText "{'id':1}"))) <> Ok (JArr []).
Proof.
  assert (E : JSON_parse (jsonText "{'id':1}") = Ok (JObj [("id", JNum (inject_Z 1))]))
    by (vm_compute; reflexivity).
  assert (L : load (storing (Some (jsonText "{'id':1}")))
              = Ok (JObj [("id", JNum (inject_Z 1))]))
    by (vm_compute; reflexivity).
  split; [| split].
  - intros collection H. rewrite E in H. discriminate H.
  - exact L.
  - rewrite L. discriminate.
Qed.

(** C5, amended. [load] never throws.  It returns the empty list when
    storage may not be read, when nothing is stored under the key, when
    the stored text is empty and when the stored text is not JSON.  Any
    other stored text it returns as [JSON.parse] reads it. *)
Theorem load_fails_soft (ls : Storage) :
  (exists v, load ls = Ok v) /\
  (denied ls = true -> load ls = Ok (JArr [])) /\
  (denied ls = false -> items ls "tasks" = None -> load ls = Ok (JArr [])) /\
  (denied ls = false -> items ls "tasks" = Some "" -> load ls = Ok (JArr [])) /\
  (forall text,
     denied ls = false -> items ls "tasks" = Some text ->
     JSON_parse text = Throw SyntaxError -> load ls = Ok (JArr [])) /\
  (forall text v,
     denied ls = false -> items ls "tasks" = Some text ->
     JSON_parse text = Ok v -> load ls = Ok v).
Proof.
  unfold load, getItem.
  destruct (denied ls) eqn:Hd; cbn [bind try_catch].
  - split; [eexists; reflexivity |].
    repeat split; try reflexivity; intros; discriminate.
  - destruct (items ls "tasks") as [text |] eqn:Hi.
    + unfold truthy.
      destruct text as [| c text]; cbn [falsy negb].
      * split; [eexists; reflexivity |].
        repeat split; try reflexivity; try (intros; discriminate).
        intros text v _ Ht Hp. injection Ht as <-.
        vm_compute in Hp. discriminate Hp.
      * destruct (JSON_parse (String c text)) as [v | e] eqn:Hp; cbn [try_catch].
        -- split; [eexists; reflexivity |].
           repeat split; try (intros; discriminate).
           ++ intros text' _ Ht Hp'. injection Ht as <-. rewrite Hp in Hp'. discriminate Hp'.
           ++ intros text' v' _ Ht Hp'. injection Ht as <-. rewrite Hp in Hp'. exact Hp'.
        -- split; [eexists; reflexivity |].
           repeat split; try reflexivity; try (intros; discriminate).
           intros text' v' _ Ht Hp'. injection Ht as <-. rewrite Hp in Hp'. discriminate Hp'.
    + split; [eexists; reflexivity |].
      repeat split; try reflexivity; intros; discriminate.
Qed.

(* ================================================================== *)
(** * Further properties of the component *)

(* ------------------------------------------------------------------ *)
(** ** Ids along a session *)

Lemma step_keeps_tasks (s : State) (e : Event) :
  setsTasks s e = false -> tasks (step s e) = tasks s.
Proof.
  destruct e as [text | text | now | id | id confirmed | dt]; cbn [step setsTasks]; intro H.
  - reflexivity.
  - reflexivity.
  - unfold addTask. apply negb_false_iff in H. rewrite H. apply showMessage_tasks.
  - discriminate H.
  - subst confirmed. unfold deleteTask. apply showMessage_tasks.
  - unfold elapse.
    set (s0 := mkState _ _ _ _ _ _ _ _).
    assert (G : forall l st, tasks (fold_left (fun s' tm => runCallback (callback tm) s') l st)
                             = tasks st).
    { induction l as [| tm l IHl]; intro st; simpl; [reflexivity |].
      rewrite IHl. destruct (callback tm). reflexivity. }
    rewrite G. reflexivity.
Qed.

Lemma step_ids_known (s : State) (e : Event) (x : Z) :
  In x (map Task.id (tasks (step s e))) ->
  In x (readings [e] ++ map Task.id (tasks s)).
Proof.
  destruct e as [text | text | now | id | id confirmed | dt]; cbn [step readings app].
  - trivial.
  - trivial.
  - unfold addTask.
    destruct (falsy (title s) || falsy (dueDate s)); rewrite showMessage_tasks.
    + intro H. right. exact H.
    + trivial.
  - rewrite toggleTaskDone_ids. trivial.
  - destruct confirmed.
    + rewrite deleteTask_tasks. intro H. apply in_map_iff in H.
      destruct H as [task [Ht Hin]]. apply filter_In in Hin.
      apply in_map_iff. exists task. split; [exact Ht | apply Hin].
    + unfold deleteTask. rewrite showMessage_tasks. trivial.
  - pose proof (step_keeps_tasks s (Wait dt) eq_refl) as E. cbn [step] in E.
    rewrite E. trivial.
Qed.

Lemma readings_cons (e : Event) (es : list Event) :
  readings (e :: es) = (readings [e] ++ readings es)%list.
Proof. destruct e; reflexivity. Qed.

Lemma run_ids_known (es : list Event) (s : State) (x : Z) :
  In x (map Task.id (tasks (run s es))) ->
  In x (readings es ++ map Task.id (tasks s)).
Proof.
  revert s. induction es as [| e es IH]; intros s H.
  - exact H.
  - simpl run in H. apply IH in H. rewrite readings_cons.
    apply in_app_or in H. apply in_or_app. destruct H as [H | H].
    + left. apply in_or_app. right. exact H.
    + apply step_ids_known in H. apply in_app_or in H. destruct H as [H | H].
      * left. apply in_or_app. left. exact H.
      * right. exact H.
Qed.

(** X2. Whatever the session, every id of the list is a reading of the
    clock at a click on 追加 or the id of a task loaded at mount; and
    when those readings and ids are pairwise distinct, so are the ids of
    the list. *)
Theorem session_ids_stay_distinct
        (loaded : list Task.t) (today : string) (es : list Event) :
  (forall task, In task (tasks (run (mount loaded today) es)) ->
     In (Task.id task) (readings es ++ map Task.id loaded)) /\
  (NoDup (readings es ++ map Task.id loaded) ->
   NoDup (map Task.id (tasks (run (mount loaded today) es)))).
Proof.
  split.
  - intros task Hin. apply (run_ids_known es (mount loaded today)).
    apply in_map. exact Hin.
  - intro H. apply run_keeps_ids_distinct. exact H.
Qed.

(** Both halves at work: a session with distinct readings, and the
    session of C1, whose two ids are the one reading it took twice. *)
Lemma session_ids_stay_distinct_witness :
  NoDup (readings [TypeTitle "Plan trip"; PickDueDate "2024-06-14"; ClickAdd 2;
                   ClickToggle 1; ClickDelete 2 true]
         ++ map Task.id [Task.mk 1 "Write report" "2024-06-10" false]) /\
  NoDup (map Task.id
           (tasks (run (mount [Task.mk 1 "Write report" "2024-06-10" false] "")
                       [TypeTitle "Plan trip"; PickDueDate "2024-06-14"; ClickAdd 2;
                        ClickToggle 1; ClickDelete 2 true]))) /\
  (forall task,
     In task (tasks (run (mount [] "2024-06-10") sameTickSession)) ->
     In (Task.id task) (readings sameTickSession ++ map Task.id [])).
Proof.
  assert (H : NoDup (readings [TypeTitle "Plan trip"; PickDueDate "2024-06-14"; ClickAdd 2;
                               ClickToggle 1; ClickDelete 2 true]
                     ++ map Task.id [Task.mk 1 "Write report" "2024-06-10" false])).
  { simpl. apply NoDup_cons; [intros [E | []]; discriminate E |].
    apply NoDup_cons; [intros [] | apply NoDup_nil]. }
  split; [exact H |]. split.
  - apply (session_ids_stay_distinct [Task.mk 1 "Write report" "2024-06-10" false] "").
    exact H.
  - apply (session_ids_stay_distinct [] "2024-06-10" sameTickSession).
Defined.

(* ------------------------------------------------------------------ *)
(** ** The handlers, one after another *)

Lemma filter_map_same_test {A : Type} (p : A -> bool) (f : A -> A) (l : list A) :
  (forall x, p (f x) = p x) -> filter p (map f l) = map f (filter p l).
Proof.
  intro H. induction l as [| x l IH]; simpl.
  - reflexivity.
  - rewrite H. destruct (p x); simpl; rewrite IH; reflexivity.
Qed.

Lemma filter_filter_swap {A : Type} (p q : A -> bool) (l : list A) :
  filter p (filter q l) = filter q (filter p l).
Proof.
  induction l as [| x l IH]; simpl.
  - reflexivity.
  - destruct (q x) eqn:Q; destruct (p x) eqn:P; simpl; rewrite ?Q, ?P, IH; reflexivity.
Qed.

(** X3. After one click on 追加 a second click adds nothing: the first
    has emptied the fields (or they were empty already), so the second
    only shows the warning. *)
Theorem addTask_twice_adds_once (now1 now2 : Z) (s : State) :
  tasks (addTask now2 (addTask now1 s)) = tasks (addTask now1 s) /\
  message (addTask now2 (addTask now1 s)) = msgInputRequired.
Proof.
  assert (E : falsy (title (addTask now1 s)) || falsy (dueDate (addTask now1 s)) = true).
  { unfold addTask.
    destruct (falsy (title s) || falsy (dueDate s)) eqn:F.
    - destruct (showMessage_inputs msgInputRequired s) as [T D]. rewrite T, D. exact F.
    - destruct (showMessage_inputs msgAdded
                  (setDueDate "" (setTitle "" (setTasks
                     (Task.mk now1 (title s) (dueDate s) false :: tasks s) s)))) as [T _].
      rewrite T. reflexivity. }
  remember (addTask now1 s) as s1 eqn:Hs1. clear Hs1.
  unfold addTask. rewrite E.
  rewrite showMessage_tasks, showMessage_message. split; reflexivity.
Qed.

(** X4. Confirmed deletions can come in any order, and deleting an id a
    second time changes nothing. *)
Theorem deleteTask_order_is_irrelevant (id1 id2 : Z) (s : State) :
  tasks (deleteTask id1 true (deleteTask id2 true s))
    = tasks (deleteTask id2 true (deleteTask id1 true s)) /\
  tasks (deleteTask id1 true (deleteTask id1 true s)) = tasks (deleteTask id1 true s).
Proof.
  rewrite !deleteTask_tasks. split.
  - apply filter_filter_swap.
  - apply filter_unchanged. intros task Hin. apply filter_In in Hin. apply Hin.
Qed.

(** X5. A tick and a confirmed deletion can come in either order. *)
Theorem toggle_and_delete_commute (id1 id2 : Z) (s : State) :
  tasks (toggleTaskDone id1 (deleteTask id2 true s))
    = tasks (deleteTask id2 true (toggleTaskDone id1 s)).
Proof.
  rewrite toggleTaskDone_tasks, !deleteTask_tasks, toggleTaskDone_tasks.
  symmetry. apply filter_map_same_test.
  intro task. destruct (Task.id task =? id1); reflexivity.
Qed.

(* ------------------------------------------------------------------ *)
(** ** The calendar day of a date

    [toDateString] writes the local day of a date, and nothing else of
    it: the weekday, the month, the day of the month and the year, from
    which the day is read back. *)

Lemma DayFromYear_next (y : Z) : DayFromYear (y + 1) = DayFromYear y + DaysInYear y.
Proof.
  unfold DayFromYear, DaysInYear.
  destruct (Z.eqb_spec (y mod 4) 0) as [H4 | H4];
    destruct (Z.eqb_spec (y mod 100) 0) as [H100 | H100];
    destruct (Z.eqb_spec (y mod 400) 0) as [H400 | H400]; cbn [negb];
    Z.to_euclidean_division_equations; lia.
Qed.

Lemma DayWithinYear_range (t : Z) :
  0 <= DayWithinYear t < DaysInYear (YearFromTime t).
Proof.
  unfold DayWithinYear, YearFromTime.
  pose proof (YearFromDay_spec (Day t)) as H.
  rewrite DayFromYear_next in H. lia.
Qed.

Lemma DaysInYear_cases (y : Z) : DaysInYear y = 365 \/ DaysInYear y = 366.
Proof.
  unfold DaysInYear.
  destruct (negb (y mod 4 =? 0)); [left; reflexivity |].
  destruct (negb (y mod 100 =? 0)); [right; reflexivity |].
  destruct (negb (y mod 400 =? 0)); [left | right]; reflexivity.
Qed.

Lemma InLeapYear_DaysInYear (t : Z) :
  DaysInYear (YearFromTime t) = 365 + InLeapYear t /\ (InLeapYear t = 0 \/ InLeapYear t = 1).
Proof.
  unfold InLeapYear. destruct (DaysInYear_cases (YearFromTime t)) as [E | E]; rewrite E; simpl; lia.
Qed.

(** The day of the month is one the month has. *)
Lemma DateFromTime_range (t : Z) :
  1 <= DateFromTime t <= DaysInMonth (YearFromTime t) (MonthFromTime t).
Proof.
  pose proof (DayWithinYear_range t) as Hd.
  destruct (InLeapYear_DaysInYear t) as [Hy Hl].
  unfold DateFromTime, MonthFromTime, DaysInMonth.
  assert (Hleap : (DaysInYear (YearFromTime t) =? 366) = (InLeapYear t =? 1)).
  { unfold InLeapYear. destruct (DaysInYear (YearFromTime t) =? 366); reflexivity. }
  rewrite Hleap.
  repeat match goal with
         | |- context [if ?a <? ?b then _ else _] => destruct (Z.ltb_spec a b)
         end; cbn [monthStart];
    destruct (Z.eqb_spec (InLeapYear t) 1); lia.
Qed.

Lemma DateFromTime_small (t : Z) : 1 <= DateFromTime t <= 31.
Proof.
  pose proof (DateFromTime_range t) as H.
  assert (DaysInMonth (YearFromTime t) (MonthFromTime t) <= 31).
  { unfold DaysInMonth.
    repeat match goal with
           | |- context [match ?x with _ => _ end] => destruct x
           end; lia. }
  lia.
Qed.

Lemma weekdayName_cases (d : Z) :
  In (weekdayName d) ["Sun"; "Mon"; "Tue"; "Wed"; "Thu"; "Fri"; "Sat"].
Proof.
  unfold weekdayName.
  repeat match goal with
         | |- context [match ?x with _ => _ end] => destruct x
         end; simpl; tauto.
Qed.

Lemma monthName_cases (m : Z) :
  exists a b c, monthName m = String a (String b (String c EmptyString)).
Proof.
  unfold monthName.
  repeat match goal with
         | |- context [match ?x with _ => _ end] => destruct x
         end; do 3 eexists; reflexivity.
Qed.

Lemma monthName_inj (m m' : Z) :
  0 <= m <= 11 -> 0 <= m' <= 11 -> monthName m = monthName m' -> m = m'.
Proof.
  intros H H' E.
  assert (C : m = 0 \/ m = 1 \/ m = 2 \/ m = 3 \/ m = 4 \/ m = 5 \/ m = 6 \/ m = 7 \/
              m = 8 \/ m = 9 \/ m = 10 \/ m = 11) by lia.
  assert (C' : m' = 0 \/ m' = 1 \/ m' = 2 \/ m' = 3 \/ m' = 4 \/ m' = 5 \/ m' = 6 \/ m' = 7 \/
               m' = 8 \/ m' = 9 \/ m' = 10 \/ m' = 11) by lia.
  repeat (destruct C as [C | C]; [subst m | ]); try subst m;
    repeat (destruct C' as [C' | C']; [subst m' | ]); try subst m';
    first [reflexivity | discriminate E].
Qed.

Lemma uint_of_string_zeros (k : nat) (s : string) :
  NilEmpty.uint_of_string (zeros k ++ s) =
  option_map (Nat.iter k Decimal.D0) (NilEmpty.uint_of_string s).
Proof.
  induction k as [| k IH]; simpl.
  - destruct (NilEmpty.uint_of_string s); reflexivity.
  - rewrite IH. destruct (NilEmpty.uint_of_string s); reflexivity.
Qed.

Lemma of_uint_leading_zeros (k : nat) (u : Decimal.uint) :
  N.of_uint (Nat.iter k Decimal.D0 u) = N.of_uint u.
Proof.
  induction k as [| k IH]; simpl; [reflexivity | exact IH].
Qed.

Lemma readPadded_pad (n : Z) (w : nat) :
  0 <= n -> readPadded (ToZeroPaddedDecimalString n w) = Some (Z.to_N n).
Proof.
  intro Hn. unfold readPadded, ToZeroPaddedDecimalString, decimalString.
  rewrite uint_of_string_zeros.
  assert (E : NilZero.string_of_uint (N.to_uint (Z.to_N n))
              = NilEmpty.string_of_uint (N.to_uint (Z.to_N n))).
  { unfold NilZero.string_of_uint.
    destruct (N.to_uint (Z.to_N n)) eqn:Eu; try reflexivity.
    exfalso. destruct (Z.to_N n) as [| p]; [discriminate Eu |].
    exact (DecimalPos.Unsigned.to_uint_nonnil p Eu). }
  rewrite E, NilEmpty.usu. simpl.
  rewrite of_uint_leading_zeros, DecimalN.Unsigned.of_to. reflexivity.
Qed.

Lemma pad_inj (n n' : Z) (w w' : nat) :
  0 <= n -> 0 <= n' ->
  ToZeroPaddedDecimalString n w = ToZeroPaddedDecimalString n' w' -> n = n'.
Proof.
  intros Hn Hn' E.
  pose proof (readPadded_pad n w Hn) as R. rewrite E, (readPadded_pad n' w' Hn') in R.
  injection R as R. lia.
Qed.

Lemma readPadded_minus (s : string) : readPadded (String "-" s) = None.
Proof.
  unfold readPadded. simpl. destruct (NilEmpty.uint_of_string s); reflexivity.
Qed.

(** The year as [DateString] writes it. *)
Lemma yearText_inj (y y' : Z) :
  (if 0 <=? y then "" else "-") ++ ToZeroPaddedDecimalString (Z.abs y) 4 =
  (if 0 <=? y' then "" else "-") ++ ToZeroPaddedDecimalString (Z.abs y') 4 ->
  y = y'.
Proof.
  destruct (Z.leb_spec 0 y) as [H | H]; destruct (Z.leb_spec 0 y') as [H' | H'];
    simpl; intro E.
  - apply pad_inj in E; lia.
  - pose proof (readPadded_pad (Z.abs y) 4 ltac:(lia)) as R.
    rewrite E, readPadded_minus in R. discriminate R.
  - pose proof (readPadded_pad (Z.abs y') 4 ltac:(lia)) as R.
    rewrite <- E, readPadded_minus in R. discriminate R.
  - injection E as E. apply pad_inj in E; lia.
Qed.

Lemma pad2_two_chars (d : Z) :
  1 <= d <= 31 ->
  exists a b, ToZeroPaddedDecimalString d 2 = String a (String b EmptyString).
Proof.
  intro H.
  destruct d as [| p | p]; try lia.
  do 5 (try destruct p as [p | p |]); try lia; do 2 eexists; vm_compute; reflexivity.
Qed.

Lemma DateString_same_day (a b : Z) : Day a = Day b -> DateString a = DateString b.
Proof.
  intro H.
  unfold DateString, WeekDay, DateFromTime, MonthFromTime, DayWithinYear, InLeapYear,
    YearFromTime.
  rewrite H. reflexivity.
Qed.

Lemma DateString_inj (a b : Z) : DateString a = DateString b -> Day a = Day b.
Proof.
  intro E. unfold DateString in E.
  destruct (monthName_cases (MonthFromTime a)) as [m1 [m2 [m3 Ema]]].
  destruct (monthName_cases (MonthFromTime b)) as [n1 [n2 [n3 Emb]]].
  destruct (pad2_two_chars _ (DateFromTime_small a)) as [d1 [d2 Eda]].
  destruct (pad2_two_chars _ (DateFromTime_small b)) as [e1 [e2 Edb]].
  assert (Parts : monthName (MonthFromTime a) = monthName (MonthFromTime b) /\
                  ToZeroPaddedDecimalString (DateFromTime a) 2
                  = ToZeroPaddedDecimalString (DateFromTime b) 2 /\
                  (if 0 <=? YearFromTime a then "" else "-") ++
                    ToZeroPaddedDecimalString (Z.abs (YearFromTime a)) 4
                  = (if 0 <=? YearFromTime b then "" else "-") ++
                    ToZeroPaddedDecimalString (Z.abs (YearFromTime b)) 4).
  { rewrite Ema, Emb, Eda, Edb in *.
    pose proof (weekdayName_cases (WeekDay a)) as Wa.
    pose proof (weekdayName_cases (WeekDay b)) as Wb.
    simpl in Wa, Wb.
    repeat (destruct Wa as [Wa | Wa]; [rewrite <- Wa in E |]); try contradiction;
      repeat (destruct Wb as [Wb | Wb]; [rewrite <- Wb in E |]); try contradiction;
      simpl in E; injection E; intros; subst; repeat split; first [reflexivity | assumption]. }
  destruct Parts as [Em [Ed Ey]].
  apply monthName_inj in Em; try apply MonthFromTime_range.
  apply pad_inj in Ed; try (pose proof (DateFromTime_small a); pose proof (DateFromTime_small b); lia).
  apply yearText_inj in Ey.
  unfold DateFromTime in Ed. unfold InLeapYear in Ed. rewrite Em, Ey in Ed.
  unfold DayWithinYear in Ed. rewrite Ey in Ed. lia.
Qed.

Lemma DateString_not_invalid (t : Z) : DateString t <> "Invalid Date".
Proof.
  unfold DateString. intro E.
  pose proof (weekdayName_cases (WeekDay t)) as W. simpl in W.
  repeat (destruct W as [W | W]; [rewrite <- W in E; discriminate E |]).
  contradiction.
Qed.

(** [isSameDay] holds of two dates exactly when both are valid and fall
    on one local calendar day, or both are invalid. *)
Lemma isSameDay_spec (host : Host) (d1 d2 : JSDate) :
  isSameDay host d1 d2 = true <->
  match d1, d2 with
  | Some a, Some b => Day (LocalTime host a) = Day (LocalTime host b)
  | None, None => True
  | _, _ => False
  end.
Proof.
  unfold isSameDay. rewrite String.eqb_eq.
  destruct d1 as [a |], d2 as [b |]; simpl.
  - split; [apply DateString_inj | apply DateString_same_day].
  - split; [intro E; exact (DateString_not_invalid _ E) | contradiction].
  - split; [intro E; symmetry in E; exact (DateString_not_invalid _ E) | contradiction].
  - split; [trivial | reflexivity].
Qed.

Lemma isSameDay_false_iff (host : Host) (a b : Z) :
  isSameDay host (Some a) (Some b) = false <->
  Day (LocalTime host a) <> Day (LocalTime host b).
Proof.
  pose proof (isSameDay_spec host (Some a) (Some b)) as H. cbv beta iota in H.
  destruct (isSameDay host (Some a) (Some b)); split; intro N.
  - discriminate N.
  - exfalso. apply N. apply H. reflexivity.
  - intro E. apply H in E. discriminate E.
  - reflexivity.
Qed.

(** X6. [isSameDay] sorts dates by local calendar day: two valid dates
    pass exactly when they fall on one local day, whatever their time of
    day; a valid date and an [Invalid Date] never pass; two
    [Invalid Date]s do. *)
Theorem isSameDay_is_same_local_day (host : Host) :
  (forall a b,
     isSameDay host (Some a) (Some b) = true <->
     Day (LocalTime host a) = Day (LocalTime host b)) /\
  (forall a, isSameDay host (Some a) NaN = false /\ isSameDay host NaN (Some a) = false) /\
  isSameDay host NaN NaN = true.
Proof.
  split; [| split].
  - intros a b. apply (isSameDay_spec host (Some a) (Some b)).
  - intro a. split.
    + destruct (isSameDay host (Some a) NaN) eqn:E; [| reflexivity].
      apply (isSameDay_spec host (Some a) NaN) in E. contradiction.
    + destruct (isSameDay host NaN (Some a)) eqn:E; [| reflexivity].
      apply (isSameDay_spec host NaN (Some a)) in E. contradiction.
  - apply (isSameDay_spec host NaN NaN). exact I.
Qed.

(* ------------------------------------------------------------------ *)
(** ** The week [isInThisWeek] accepts *)

Lemma WeekDay_range (t : Z) : 0 <= WeekDay t <= 6.
Proof. unfold WeekDay. pose proof (Z.mod_pos_bound (Day t + 4) 7 ltac:(lia)). lia. Qed.

Lemma TimeClip_in_range (t : Z) :
  Z.abs t <= 8640000000000000 -> TimeClip t = Some t.
Proof.
  intro H. unfold TimeClip. destruct (Z.leb_spec (Z.abs t) 8640000000000000); [reflexivity | lia].
Qed.

Lemma TimeClip_Some (t u : Z) : TimeClip t = Some u -> u = t.
Proof.
  unfold TimeClip. destruct (Z.abs t <=? 8640000000000000); intro H; [| discriminate H].
  injection H as H. symmetry. exact H.
Qed.

(** On a host with a fixed offset, what [isInThisWeek] accepts is in
    the week of the specification. *)
Lemma isInThisWeek_within_spec_week (tza now date : Z) (parse : string -> JSDate) :
  isInThisWeek (mkHost (fun _ _ => tza) parse) (Some now) (Some date) = true ->
  spec_isInThisWeek (mkHost (fun _ _ => tza) parse) now date = true.
Proof.
  intro H. rewrite isInThisWeek_window in H.
  apply andb_true_iff in H. destruct H as [H Hs].
  apply andb_true_iff in H. destruct H as [Hge Hle].
  apply negb_true_iff in Hs. apply isSameDay_false_iff in Hs.
  unfold num_ge in Hge. unfold num_le in Hle.
  destruct (TimeClip (now - _)) as [start |] eqn:Es; [| discriminate Hge].
  destruct (TimeClip (now + _)) as [end_ |] eqn:Ee; [| discriminate Hle].
  apply TimeClip_Some in Es, Ee. subst start end_.
  apply Z.leb_le in Hge, Hle.
  unfold spec_isInThisWeek, spec_inWeekOf.
  unfold LocalTime in *. cbn [LocalTZA] in *.
  pose proof (WeekDay_range (now + tza)) as Hw.
  set (wd := WeekDay (now + tza)) in *.
  apply andb_true_iff. split.
  - apply andb_true_iff. unfold Day, msPerDay in *. split; apply Z.leb_le;
      Z.to_euclidean_division_equations; lia.
  - apply negb_true_iff. apply Z.eqb_neq. exact Hs.
Qed.

(** And it accepts a date of that week unless the date falls on the
    Sunday before the time of day of [now], or on the Saturday after it. *)
Lemma isInThisWeek_iff_spec_week (tza now date : Z) (parse : string -> JSDate) :
  Z.abs now <= 8640000000000000 - 6 * msPerDay ->
  (isInThisWeek (mkHost (fun _ _ => tza) parse) (Some now) (Some date) = true <->
   spec_isInThisWeek (mkHost (fun _ _ => tza) parse) now date = true /\
   (Day (date + tza) = Day (now + tza) - WeekDay (now + tza) ->
      TimeWithinDay (now + tza) <= TimeWithinDay (date + tza)) /\
   (Day (date + tza) = Day (now + tza) - WeekDay (now + tza) + 6 ->
      TimeWithinDay (date + tza) <= TimeWithinDay (now + tza))).
Proof.
  intro Hr.
  pose proof (WeekDay_range (now + tza)) as Hw.
  rewrite isInThisWeek_window.
  rewrite !TimeClip_in_range by (unfold msPerDay in *; lia).
  unfold num_ge, num_le, spec_isInThisWeek, spec_inWeekOf, LocalTime.
  cbn [LocalTZA].
  rewrite !andb_true_iff, !negb_true_iff, !Z.leb_le, Z.eqb_neq, isSameDay_false_iff.
  unfold LocalTime. cbn [LocalTZA].
  set (wd := WeekDay (now + tza)) in *.
  unfold Day, TimeWithinDay, msPerDay in *.
  split.
  - intros [[Hge Hle] Hs]. repeat split; try exact Hs;
      Z.to_euclidean_division_equations; lia.
  - intros [[[Hge Hle] Hs] [Hsun Hsat]]. repeat split; try exact Hs.
    + assert (C : (date + tza) / 86400000 = (now + tza) / 86400000 - wd \/
                  (now + tza) / 86400000 - wd < (date + tza) / 86400000) by lia.
      destruct C as [C | C].
      * specialize (Hsun C). Z.to_euclidean_division_equations; lia.
      * Z.to_euclidean_division_equations; lia.
    + assert (C : (date + tza) / 86400000 = (now + tza) / 86400000 - wd + 6 \/
                  (date + tza) / 86400000 < (now + tza) / 86400000 - wd + 6) by lia.
      destruct C as [C | C].
      * specialize (Hsat C). Z.to_euclidean_division_equations; lia.
      * Z.to_euclidean_division_equations; lia.
Qed.

Lemma spec_isInThisWeek_iff (tza now date : Z) (parse : string -> JSDate) :
  spec_isInThisWeek (mkHost (fun _ _ => tza) parse) now date = true <->
  (Day (now + tza) - WeekDay (now + tza) <= Day (date + tza)
     <= Day (now + tza) - WeekDay (now + tza) + 6) /\
  Day (date + tza) <> Day (now + tza).
Proof.
  unfold spec_isInThisWeek, spec_inWeekOf, LocalTime. cbn [LocalTZA].
  rewrite !andb_true_iff, negb_true_iff, !Z.leb_le, Z.eqb_neq. tauto.
Qed.

(** X7. On a host with a fixed offset from UTC, [isInThisWeek] never
    accepts a date outside the Sunday-to-Saturday week of [now], nor one
    on the day of [now]. *)
Theorem isInThisWeek_stays_in_week (tza now date : Z) (parse : string -> JSDate) :
  isInThisWeek (mkHost (fun _ _ => tza) parse) (Some now) (Some date) = true ->
  let sunday := Day (now + tza) - WeekDay (now + tza) in
  sunday <= Day (date + tza) <= sunday + 6 /\ Day (date + tza) <> Day (now + tza).
Proof.
  intros H sunday. apply (spec_isInThisWeek_iff tza now date parse).
  apply isInThisWeek_within_spec_week. exact H.
Qed.

Lemma isInThisWeek_stays_in_week_witness :
  isInThisWeek utcHost (Some 1718193600000) (Some 1718323200000) = true /\
  (let sunday := Day (1718193600000 + 0) - WeekDay (1718193600000 + 0) in
   sunday <= Day (1718323200000 + 0) <= sunday + 6 /\
   Day (1718323200000 + 0) <> Day (1718193600000 + 0)).
Proof.
  split.
  - vm_compute. reflexivity.
  - apply (isInThisWeek_stays_in_week 0 1718193600000 1718323200000 isoDateOnly).
    vm_compute. reflexivity.
Defined.

(** X8. On such a host, and with [now] six days inside the range of
    time values, [isInThisWeek] accepts a date exactly when the date is
    in the week of [now], not on the day of [now], and neither on the
    Sunday of that week before the time of day of [now] nor on its
    Saturday after that time of day. *)
Theorem isInThisWeek_exact (tza now date : Z) (parse : string -> JSDate) :
  Z.abs now <= 8640000000000000 - 6 * msPerDay ->
  let sunday := Day (now + tza) - WeekDay (now + tza) in
  isInThisWeek (mkHost (fun _ _ => tza) parse) (Some now) (Some date) = true <->
  (sunday <= Day (date + tza) <= sunday + 6 /\ Day (date + tza) <> Day (now + tza)) /\
  (Day (date + tza) = sunday -> TimeWithinDay (now + tza) <= TimeWithinDay (date + tza)) /\
  (Day (date + tza) = sunday + 6 -> TimeWithinDay (date + tza) <= TimeWithinDay (now + tza)).
Proof.
  intros Hr sunday. unfold sunday.
  rewrite (isInThisWeek_iff_spec_week tza now date parse Hr).
  rewrite (spec_isInThisWeek_iff tza now date parse). reflexivity.
Qed.

Lemma isInThisWeek_exact_witness :
  Z.abs 1718193600000 <= 8640000000000000 - 6 * msPerDay /\
  (let sunday := Day (1718193600000 + 0) - WeekDay (1718193600000 + 0) in
   isInThisWeek utcHost (Some 1718193600000) (Some 1717891200000) = true <->
   (sunday <= Day (1717891200000 + 0) <= sunday + 6 /\
    Day (1717891200000 + 0) <> Day (1718193600000 + 0)) /\
   (Day (1717891200000 + 0) = sunday ->
      TimeWithinDay (1718193600000 + 0) <= TimeWithinDay (1717891200000 + 0)) /\
   (Day (1717891200000 + 0) = sunday + 6 ->
      TimeWithinDay (1717891200000 + 0) <= TimeWithinDay (1718193600000 + 0))).
Proof.
  assert (H : Z.abs 1718193600000 <= 8640000000000000 - 6 * msPerDay)
    by (unfold msPerDay; lia).
  split; [exact H |].
  apply (isInThisWeek_exact 0 1718193600000 1717891200000 isoDateOnly H).
Defined.

(* ------------------------------------------------------------------ *)
(** ** The views and the handlers *)

Lemma filter_none {A : Type} (l : list A) : filter (fun _ => false) l = [].
Proof. induction l as [| x l IH]; simpl; [reflexivity | exact IH]. Qed.

(** X9. The view of the selected day.  With no date selected it is
    empty.  With a date selected it lists, in the order of the list, the
    tasks whose due date parses to the local calendar day of the
    selection; should the selection be an [Invalid Date], it lists the
    tasks whose due date does not parse.  With today selected, as at the
    first render, it is the today view. *)
Theorem selectedDateTasks_lists_the_day (host : Host) (collection : list Task.t) :
  selectedDateTasks host None collection = [] /\
  (forall d task,
     In task (selectedDateTasks host (Some (Some d)) collection) <->
     In task collection /\
     exists t, Date_parse host (Task.dueDate task) = Some t /\
               Day (LocalTime host t) = Day (LocalTime host d)) /\
  (forall task,
     In task (selectedDateTasks host (Some NaN) collection) <->
     In task collection /\ Date_parse host (Task.dueDate task) = NaN) /\
  (forall selectedDate, Subseq (selectedDateTasks host selectedDate collection) collection) /\
  (forall today, selectedDateTasks host (Some today) collection = todayTasks host today collection).
Proof.
  unfold selectedDateTasks. split; [apply filter_none |].
  split; [| split; [| split]].
  - intros d task. rewrite filter_In.
    pose proof (isSameDay_spec host (Date_parse host (Task.dueDate task)) (Some d)) as S.
    split; intros [Hin H]; (split; [exact Hin |]).
    + apply S in H. destruct (Date_parse host (Task.dueDate task)) as [t |]; [| contradiction].
      exists t. split; [reflexivity | exact H].
    + destruct H as [t [Et Ed]]. apply S. rewrite Et. exact Ed.
  - intro task. rewrite filter_In.
    pose proof (isSameDay_spec host (Date_parse host (Task.dueDate task)) NaN) as S.
    split; intros [Hin H]; (split; [exact Hin |]).
    + apply S in H. destruct (Date_parse host (Task.dueDate task)) as [t |]; [contradiction | reflexivity].
    + apply S. rewrite H. exact I.
  - intro selectedDate. apply filter_Subseq.
  - intro today. reflexivity.
Qed.






(* ------------------------------------------------------------------ *)
(** ** The date the date field starts with *)

Example toISOString_samples :
  toISOString 1718020800123 = "2024-06-10T12:00:00.123Z" /\
  toISOString (-62198755200000) = "-000001-01-01T00:00:00.000Z" /\
  initialDueDate 1718020800123 = "2024-06-10" /\
  split "T" "aTbTT" = ["a"; "b"; ""; ""].
Proof. repeat split; vm_compute; reflexivity. Qed.

Lemma below_checked (f : Z -> bool) (k : nat) :
  forallb f (map Z.of_nat (seq 0 k)) = true ->
  forall n, 0 <= n < Z.of_nat k -> f n = true.
Proof.
  intros H n Hn. rewrite forallb_forall in H. apply H.
  apply in_map_iff. exists (Z.to_nat n). split; [lia |].
  apply in_seq. lia.
Qed.

Lemma twoDigits_below_100 (n : Z) : 0 <= n < 100 -> twoDigits n = true.
Proof. apply (below_checked twoDigits 100). vm_compute. reflexivity. Qed.

Lemma split_nonempty (sep : ascii) (s : string) : split sep s <> [].
Proof.
  destruct s as [| c r]; simpl; [discriminate |].
  destruct (Ascii.eqb c sep); [discriminate |].
  destruct (split sep r); discriminate.
Qed.

Lemma hd_split_cons (sep c : ascii) (r : string) :
  hd EmptyString (split sep (String c r)) =
  if Ascii.eqb c sep then EmptyString else String c (hd EmptyString (split sep r)).
Proof.
  simpl. destruct (Ascii.eqb c sep); [reflexivity |].
  pose proof (split_nonempty sep r) as H.
  destruct (split sep r); [contradiction | reflexivity].
Qed.

Lemma digit_is_not_T (c : ascii) (x : Z) :
  digitValue c = Some x -> Ascii.eqb c "T" = false.
Proof.
  intro H. destruct (Ascii.eqb_spec c "T") as [E | E]; [| reflexivity].
  subst c. discriminate H.
Qed.

Lemma digitValue_range (c : ascii) (x : Z) : digitValue c = Some x -> 0 <= x <= 9.
Proof.
  unfold digitValue.
  destruct ((48 <=? Z.of_nat (nat_of_ascii c)) && (Z.of_nat (nat_of_ascii c) <=? 57)) eqn:E;
    intro H; [| discriminate H].
  injection H as H. apply andb_true_iff in E. destruct E as [E1 E2].
  apply Z.leb_le in E1, E2. lia.
Qed.

Lemma twoDigits_shape (n : Z) :
  0 <= n < 100 ->
  exists a b x y,
    ToZeroPaddedDecimalString n 2 = String a (String b EmptyString) /\
    digitValue a = Some x /\ digitValue b = Some y /\ 10 * x + y = n.
Proof.
  intro H. pose proof (twoDigits_below_100 n H) as C. unfold twoDigits in C.
  destruct (ToZeroPaddedDecimalString n 2) as [| a [| b [| c r]]]; try discriminate C.
  destruct (digitValue a) as [x |] eqn:Ea; [| discriminate C].
  destruct (digitValue b) as [y |] eqn:Eb; [| discriminate C].
  apply Z.eqb_eq in C. exists a, b, x, y. repeat split; try reflexivity; assumption.
Qed.

Lemma of_uint_acc_uintValue (u : Decimal.uint) (acc : positive) :
  Npos (Pos.of_uint_acc u acc) = uintValue u (Npos acc).
Proof.
  revert acc. induction u as [| u IH | u IH | u IH | u IH | u IH | u IH | u IH | u IH
                              | u IH | u IH]; intro acc; cbn [Pos.of_uint_acc uintValue];
    [reflexivity | rewrite IH; reflexivity ..].
Qed.

Lemma of_uint_uintValue (u : Decimal.uint) : N.of_uint u = uintValue u 0.
Proof.
  unfold N.of_uint.
  induction u as [| u IH | u IH | u IH | u IH | u IH | u IH | u IH | u IH | u IH | u IH];
    cbn [Pos.of_uint uintValue];
    [reflexivity | exact IH | apply of_uint_acc_uintValue ..].
Qed.

Lemma uintValue_digitUint (x : Z) (u : Decimal.uint) (acc : N) :
  0 <= x <= 9 -> uintValue (digitUint x u) acc = uintValue u (Z.to_N x + 10 * acc)%N.
Proof.
  intro H.
  assert (C : x = 0 \/ x = 1 \/ x = 2 \/ x = 3 \/ x = 4 \/ x = 5 \/ x = 6 \/ x = 7 \/
              x = 8 \/ x = 9) by lia.
  repeat (destruct C as [C | C]; [subst x; reflexivity |]). subst x. reflexivity.
Qed.

Lemma string_of_digitUint (x : Z) (u : Decimal.uint) :
  0 <= x <= 9 ->
  exists ch,
    NilEmpty.string_of_uint (digitUint x u) = String ch (NilEmpty.string_of_uint u) /\
    digitValue ch = Some x /\
    (x <> 0 -> Decimal.unorm (digitUint x u) = digitUint x u /\
               NilZero.string_of_uint (digitUint x u)
               = NilEmpty.string_of_uint (digitUint x u)) /\
    (x = 0 -> ch = "0"%char /\ digitUint x u = Decimal.D0 u).
Proof.
  intro H.
  assert (C : x = 0 \/ x = 1 \/ x = 2 \/ x = 3 \/ x = 4 \/ x = 5 \/ x = 6 \/ x = 7 \/
              x = 8 \/ x = 9) by lia.
  repeat (destruct C as [C | C];
          [subst x; eexists; repeat split; try reflexivity; intros; lia |]).
  subst x. eexists. repeat split; try reflexivity; intros; lia.
Qed.

(** Padding gives back the zeros that normalising a numeral drops. *)
Lemma pad_unorm (u : Decimal.uint) :
  u <> Decimal.Nil ->
  (String.length (NilZero.string_of_uint (Decimal.unorm u))
   <= String.length (NilEmpty.string_of_uint u))%nat /\
  zeros (String.length (NilEmpty.string_of_uint u)
         - String.length (NilZero.string_of_uint (Decimal.unorm u)))
    ++ NilZero.string_of_uint (Decimal.unorm u)
  = NilEmpty.string_of_uint u.
Proof.
  induction u as [| u IH | u IH | u IH | u IH | u IH | u IH | u IH | u IH | u IH | u IH];
    intro Hn; [contradiction | | split; [apply Nat.le_refl | rewrite Nat.sub_diag; reflexivity] ..].
  rewrite DecimalFacts.unorm_D0.
  destruct u as [| u' | u' | u' | u' | u' | u' | u' | u' | u' | u'];
    [split; [apply Nat.le_refl | reflexivity] | ..];
    (destruct IH as [Hl He]; [discriminate |]);
    (split; [cbn [NilEmpty.string_of_uint String.length] in *; lia |]);
    cbn [NilEmpty.string_of_uint String.length] in *;
    rewrite Nat.sub_succ_l by exact Hl; cbn [zeros append];
    rewrite He; reflexivity.
Qed.

Lemma fourDigits_shape (n : Z) :
  0 <= n < 10000 ->
  exists a b c d x y z w,
    ToZeroPaddedDecimalString n 4 = String a (String b (String c (String d EmptyString))) /\
    digitValue a = Some x /\ digitValue b = Some y /\
    digitValue c = Some z /\ digitValue d = Some w /\
    1000 * x + 100 * y + 10 * z + w = n.
Proof.
  intro H.
  set (x := n / 1000). set (y := (n / 100) mod 10).
  set (z := (n / 10) mod 10). set (w := n mod 10).
  assert (Hx : 0 <= x <= 9) by (unfold x; Z.to_euclidean_division_equations; lia).
  assert (Hy : 0 <= y <= 9) by (unfold y; Z.to_euclidean_division_equations; lia).
  assert (Hz : 0 <= z <= 9) by (unfold z; Z.to_euclidean_division_equations; lia).
  assert (Hw : 0 <= w <= 9) by (unfold w; Z.to_euclidean_division_equations; lia).
  assert (Hn : 1000 * x + 100 * y + 10 * z + w = n)
    by (unfold x, y, z, w; Z.to_euclidean_division_equations; lia).
  set (u := digitUint x (digitUint y (digitUint z (digitUint w Decimal.Nil)))).
  assert (Hv : N.of_uint u = Z.to_N n).
  { rewrite of_uint_uintValue. unfold u.
    rewrite !uintValue_digitUint by assumption. cbn [uintValue]. lia. }
  destruct (string_of_digitUint w Decimal.Nil Hw) as [d [Sd [Vd _]]].
  destruct (string_of_digitUint z (digitUint w Decimal.Nil) Hz) as [c [Sc [Vc _]]].
  destruct (string_of_digitUint y (digitUint z (digitUint w Decimal.Nil)) Hy)
    as [b [Sb [Vb _]]].
  destruct (string_of_digitUint x (digitUint y (digitUint z (digitUint w Decimal.Nil))) Hx)
    as [a [Sa [Va _]]].
  assert (Su : NilEmpty.string_of_uint u
               = String a (String b (String c (String d EmptyString)))).
  { unfold u. rewrite Sa, Sb, Sc, Sd. reflexivity. }
  assert (Nu : u <> Decimal.Nil).
  { intro E. rewrite E in Su. discriminate Su. }
  exists a, b, c, d, x, y, z, w. repeat split; try assumption.
  unfold ToZeroPaddedDecimalString, decimalString. cbv zeta.
  rewrite <- Hv, DecimalN.Unsigned.to_of.
  destruct (pad_unorm u Nu) as [_ He]. rewrite Su in He. exact He.
Qed.

Lemma MakeDay_of_fields (t : Z) :
  MakeDay (YearFromTime t) (MonthFromTime t) (DateFromTime t) = Day t.
Proof.
  pose proof (MonthFromTime_range t) as Hm.
  unfold MakeDay.
  replace (MonthFromTime t / 12) with 0 by (symmetry; apply Z.div_small; lia).
  rewrite (Z.mod_small (MonthFromTime t) 12) by lia.
  rewrite Z.add_0_r.
  unfold DateFromTime, DayWithinYear, InLeapYear. lia.
Qed.

(** The text the date field starts with, read back by [new Date]: the
    midnight, UTC, of the UTC day of [now]. *)
Lemma isoDateOnly_initialDueDate (now : Z) :
  0 <= YearFromTime now <= 9999 ->
  isoDateOnly (initialDueDate now) = Some (Day now * msPerDay).
Proof.
  intro Hy.
  pose proof (MonthFromTime_range now) as Hm.
  pose proof (DateFromTime_range now) as Hd.
  pose proof (DateFromTime_small now) as Hd'.
  pose proof (MakeDay_of_fields now) as Hmk.
  assert (Hclip : Z.abs (Day now * msPerDay) <= 8640000000000000).
  { pose proof (YearFromDay_spec (Day now)) as Hs. fold (YearFromTime now) in Hs.
    unfold DayFromYear, msPerDay in *. Z.to_euclidean_division_equations. lia. }
  destruct (fourDigits_shape (YearFromTime now) ltac:(lia))
    as [y1 [y2 [y3 [y4 [a [b [c [d [Ey [A [B [C [D Vy]]]]]]]]]]]]].
  destruct (twoDigits_shape (MonthFromTime now + 1) ltac:(lia))
    as [m1 [m2 [e [f [Em [E [F Vm]]]]]]].
  destruct (twoDigits_shape (DateFromTime now) ltac:(lia))
    as [d1 [d2 [g [h [Ed [G [H Vd]]]]]]].
  unfold initialDueDate, toISOString.
  assert (T : (0 <=? YearFromTime now) && (YearFromTime now <=? 9999) = true).
  { apply andb_true_iff. split; apply Z.leb_le; lia. }
  rewrite T, Ey, Em, Ed. cbn [append].
  rewrite !hd_split_cons.
  rewrite (digit_is_not_T _ _ A), (digit_is_not_T _ _ B), (digit_is_not_T _ _ C),
    (digit_is_not_T _ _ D), (digit_is_not_T _ _ E), (digit_is_not_T _ _ F),
    (digit_is_not_T _ _ G), (digit_is_not_T _ _ H).
  cbn [Ascii.eqb Bool.eqb].
  unfold isoDateOnly. rewrite A, B, C, D, E, F, G, H.
  cbn [Ascii.eqb Bool.eqb andb].
  rewrite Vy, Vm, Vd.
  replace (MonthFromTime now + 1 - 1) with (MonthFromTime now) by lia.
  assert (Ok : (1 <=? MonthFromTime now + 1) && (MonthFromTime now + 1 <=? 12) &&
               (1 <=? DateFromTime now) &&
               (DateFromTime now <=? DaysInMonth (YearFromTime now) (MonthFromTime now)) = true).
  { repeat (apply andb_true_iff; split); apply Z.leb_le; lia. }
  rewrite Ok, Hmk. unfold MakeDate. rewrite Z.add_0_r.
  apply TimeClip_in_range. exact Hclip.
Qed.

Lemma initialDueDate_nonempty (now : Z) :
  0 <= YearFromTime now <= 9999 -> falsy (initialDueDate now) = false.
Proof.
  intro Hy. pose proof (isoDateOnly_initialDueDate now Hy) as H.
  destruct (initialDueDate now); [discriminate H | reflexivity].
Qed.

Lemma year_of_sample : YearFromTime 1718020800123 = 2024.
Proof. vm_compute. reflexivity. Qed.

(** X13. The text the date field starts with is the UTC calendar day of
    the first render, written yyyy-MM-dd: it is not empty, and
    [new Date] reads it back as the midnight, UTC, of that day. *)
Theorem initialDueDate_parses_back (now : Z) :
  0 <= YearFromTime now <= 9999 ->
  isoDateOnly (initialDueDate now) = Some (Day now * msPerDay) /\
  initialDueDate now <> EmptyString.
Proof.
  intro Hy. split.
  - apply isoDateOnly_initialDueDate. exact Hy.
  - apply falsy_false_iff. apply initialDueDate_nonempty. exact Hy.
Qed.

Lemma initialDueDate_parses_back_witness :
  0 <= YearFromTime 1718020800123 <= 9999 /\
  isoDateOnly (initialDueDate 1718020800123) = Some (Day 1718020800123 * msPerDay) /\
  initialDueDate 1718020800123 <> EmptyString.
Proof.
  assert (H : 0 <= YearFromTime 1718020800123 <= 9999) by (rewrite year_of_sample; lia).
  split; [exact H |].
  apply (initialDueDate_parses_back 1718020800123 H).
Defined.

(** The first task of a session, added without touching the date field,
    is listed under today at a later render exactly when the UTC
    midnight of the UTC day of the first render falls on the local day
    of that later render. *)
Lemma first_task_in_today
        (tza now later id : Z) (text : string) (loaded : list Task.t) :
  0 <= YearFromTime now <= 9999 ->
  text <> EmptyString ->
  todayTasks (mkHost (fun _ _ => tza) isoDateOnly) (Some later)
    (tasks (run (mount loaded (initialDueDate now)) [TypeTitle text; ClickAdd id]))
  = if Day (Day now * msPerDay + tza) =? Day (later + tza)
    then Task.mk id text (initialDueDate now) false
           :: todayTasks (mkHost (fun _ _ => tza) isoDateOnly) (Some later) loaded
    else todayTasks (mkHost (fun _ _ => tza) isoDateOnly) (Some later) loaded.
Proof.
  intros Hy Ht.
  assert (E : tasks (run (mount loaded (initialDueDate now)) [TypeTitle text; ClickAdd id])
              = Task.mk id text (initialDueDate now) false :: loaded).
  { cbn [run fold_left step]. unfold addTask. cbn [title dueDate setTitle mount].
    apply falsy_false_iff in Ht. rewrite Ht, (initialDueDate_nonempty now Hy).
    cbn [orb]. rewrite showMessage_tasks. reflexivity. }
  rewrite E. unfold todayTasks. cbn [filter Task.dueDate Date_parse].
  rewrite (isoDateOnly_initialDueDate now Hy).
  pose proof (isSameDay_spec (mkHost (fun _ _ => tza) isoDateOnly)
                (Some (Day now * msPerDay)) (Some later)) as S.
  cbv beta iota in S. unfold LocalTime in S. cbn [LocalTZA] in S.
  destruct (Z.eqb_spec (Day (Day now * msPerDay + tza)) (Day (later + tza))) as [D | D].
  - apply S in D. rewrite D. reflexivity.
  - destruct (isSameDay _ _ _); [exfalso; apply D, S; reflexivity | reflexivity].
Qed.

(** X14. The first task of a session, added without touching the date
    field, is listed under today at a later render exactly when the UTC
    midnight of the UTC day of the first render falls on the local day
    of that later render; on a host on UTC it is as long as the UTC day
    has not changed. *)
Theorem default_due_date_in_today
        (tza now later id : Z) (text : string) (loaded : list Task.t) :
  0 <= YearFromTime now <= 9999 ->
  text <> EmptyString ->
  let host := mkHost (fun _ _ => tza) isoDateOnly in
  let newTask := Task.mk id text (initialDueDate now) false in
  let after := tasks (run (mount loaded (initialDueDate now)) [TypeTitle text; ClickAdd id]) in
  after = newTask :: loaded /\
  todayTasks host (Some later) after
  = (if Day (Day now * msPerDay + tza) =? Day (later + tza)
     then newTask :: todayTasks host (Some later) loaded
     else todayTasks host (Some later) loaded) /\
  (tza = 0 -> Day later = Day now ->
   todayTasks host (Some later) after = newTask :: todayTasks host (Some later) loaded).
Proof.
  intros Hy Ht host newTask after.
  pose proof (first_task_in_today tza now later id text loaded Hy Ht) as F.
  split; [| split].
  - unfold after. cbn [run fold_left step]. unfold addTask. cbn [title dueDate setTitle mount].
    apply falsy_false_iff in Ht. rewrite Ht, (initialDueDate_nonempty now Hy).
    cbn [orb]. rewrite showMessage_tasks. reflexivity.
  - exact F.
  - intros Z0 Hd. unfold after, host. rewrite F. subst tza. rewrite !Z.add_0_r.
    assert (E : Day (Day now * msPerDay) = Day now).
    { unfold Day. apply Z.div_mul. unfold msPerDay. lia. }
    rewrite E, Hd, Z.eqb_refl. reflexivity.
Qed.

Lemma default_due_date_in_today_witness :
  0 <= YearFromTime 1718020800123 <= 9999 /\
  "Write report" <> EmptyString /\
  (let host := mkHost (fun _ _ => 32400000) isoDateOnly in
   let newTask := Task.mk 1 "Write report" (initialDueDate 1718020800123) false in
   let after := tasks (run (mount [] (initialDueDate 1718020800123))
                         [TypeTitle "Write report"; ClickAdd 1]) in
   after = newTask :: [] /\
   todayTasks host (Some 1718020860000) after
   = (if Day (Day 1718020800123 * msPerDay + 32400000) =? Day (1718020860000 + 32400000)
      then newTask :: todayTasks host (Some 1718020860000) []
      else todayTasks host (Some 1718020860000) []) /\
   (32400000 = 0 -> Day 1718020860000 = Day 1718020800123 ->
    todayTasks host (Some 1718020860000) after
    = newTask :: todayTasks host (Some 1718020860000) [])).
Proof.
  assert (H : 0 <= YearFromTime 1718020800123 <= 9999) by (rewrite year_of_sample; lia).
  assert (T : "Write report" <> EmptyString) by discriminate.
  split; [exact H |]. split; [exact T |].
  apply (default_due_date_in_today 32400000 1718020800123 1718020860000 1 "Write report" []
           H T).
Defined.

Example default_due_date_in_tokyo :
  let morning := 1718193600000 - 9 * 3600000 - 4 * 3600000 in  (* Wed 12 Jun, 08:00 JST *)
  let noon := 1718193600000 - 9 * 3600000 in                   (* Wed 12 Jun, 12:00 JST *)
  initialDueDate morning = "2024-06-11" /\
  initialDueDate noon = "2024-06-12" /\
  toDateString jstHost (Some morning) = "Wed Jun 12 2024".
Proof. repeat split; vm_compute; reflexivity. Qed.

(* ------------------------------------------------------------------ *)
(** ** The message timer along a session *)

(** X15. From the first render on, at most one timer is scheduled, and
    it is the one the ref holds: no timer is ever left behind. *)
Theorem session_keeps_one_timer (loaded : list Task.t) (today : string) (es : list Event) :
  let s := run (mount loaded today) es in
  (List.length (timers s) <= 1)%nat /\
  (forall tm, In tm (timers s) -> messageTimeoutRef s = Some (handle tm)).
Proof.
  intro s.
  assert (Hc : coherent s) by apply coherent_run, coherent_mount.
  split; [apply Hc |].
  intros tm Hin. apply Hc. exact Hin.
Qed.

Lemma expiring_showMessage (msg : string) (s : State) :
  coherent s -> expiring (showMessage msg s).
Proof.
  intro Hc. destruct (showMessage_schedules msg s Hc) as [_ [Ht [_ [_ Hk]]]].
  unfold expiring. rewrite Ht, Hk. split.
  - intros tm [<- | []]. simpl. lia.
  - discriminate.
Qed.

Lemma elapse_no_timer (dt : Z) (s : State) :
  timers s = [] ->
  message (elapse dt s) = message s /\ timers (elapse dt s) = [] /\
  clock (elapse dt s) = clock s + dt.
Proof. intro E. unfold elapse. rewrite E. simpl. repeat split; reflexivity. Qed.

Lemma expiring_elapse (dt : Z) (s : State) :
  0 <= dt -> coherent s -> expiring s -> expiring (elapse dt s).
Proof.
  intros Hdt Hc [Hdue Hmsg]. unfold expiring.
  destruct (coherent_cases s Hc) as [E | [tm [E _]]].
  - destruct (elapse_no_timer dt s E) as [Hm [Ht _]]. rewrite Hm, Ht. split.
    + intros tm [].
    + intros _. apply Hmsg. exact E.
  - destruct (Z.lt_ge_cases (clock s + dt) (due tm)) as [Hlt | Hge].
    + destruct (elapse_before_due dt s tm E Hlt) as [Hm [Ht [_ [_ Hk]]]].
      rewrite Ht, Hk. split; [| discriminate].
      intros tm' [<- | []]. specialize (Hdue tm). rewrite E in Hdue.
      specialize (Hdue (or_introl eq_refl)). lia.
    + destruct (elapse_after_due dt s tm E Hge) as [Hm [Ht _]].
      rewrite Hm, Ht. split; [intros tm' [] | reflexivity].
Qed.

Lemma expiring_step (s : State) (e : Event) :
  (forall dt, e = Wait dt -> 0 <= dt) -> coherent s -> expiring s -> expiring (step s e).
Proof.
  intros Hw Hc He. destruct e as [text | text | now | id | id confirmed | dt]; cbn [step].
  - exact He.
  - exact He.
  - unfold addTask. destruct (falsy (title s) || falsy (dueDate s));
      apply expiring_showMessage; exact Hc.
  - exact He.
  - unfold deleteTask. destruct confirmed; apply expiring_showMessage; exact Hc.
  - apply expiring_elapse; [apply (Hw dt eq_refl) | exact Hc | exact He].
Qed.

Lemma expiring_run (es : list Event) (s : State) :
  timeMovesOn es -> coherent s -> expiring s -> expiring (run s es).
Proof.
  revert s. induction es as [| e es IH]; intros s Hw Hc He; simpl.
  - exact He.
  - apply IH.
    + intros dt Hin. apply Hw. right. exact Hin.
    + apply coherent_step. exact Hc.
    + apply expiring_step; [| exact Hc | exact He].
      intros dt E. apply Hw. left. exact E.
Qed.

(** X16. メッセージ表示（3秒で消える）: whatever the session, three
    seconds without an event leave no message showing and no timer
    scheduled. *)
Theorem message_is_gone_after_three_seconds
        (loaded : list Task.t) (today : string) (es : list Event) (dt : Z) :
  timeMovesOn es -> 3000 <= dt ->
  message (elapse dt (run (mount loaded today) es)) = EmptyString /\
  timers (elapse dt (run (mount loaded today) es)) = [].
Proof.
  intros Hw Hdt.
  assert (Hc : coherent (run (mount loaded today) es)) by apply coherent_run, coherent_mount.
  assert (He : expiring (run (mount loaded today) es)).
  { apply expiring_run; [exact Hw | apply coherent_mount |].
    split; [intros tm [] | reflexivity]. }
  set (s := run (mount loaded today) es) in *.
  destruct He as [Hdue Hmsg].
  destruct (coherent_cases s Hc) as [E | [tm [E _]]].
  - destruct (elapse_no_timer dt s E) as [Hm [Ht _]]. rewrite Hm, Ht.
    split; [apply Hmsg; exact E | reflexivity].
  - specialize (Hdue tm). rewrite E in Hdue. specialize (Hdue (or_introl eq_refl)).
    destruct (elapse_after_due dt s tm E ltac:(lia)) as [Hm [Ht _]]. split; assumption.
Qed.

Lemma message_is_gone_after_three_seconds_witness :
  timeMovesOn [TypeTitle "Write report"; ClickAdd 1; Wait 1000; ClickDelete 1 false] /\
  3000 <= 3000 /\
  message (elapse 3000 (run (mount [] "2024-06-10")
             [TypeTitle "Write report"; ClickAdd 1; Wait 1000; ClickDelete 1 false]))
    = EmptyString /\
  timers (elapse 3000 (run (mount [] "2024-06-10")
            [TypeTitle "Write report"; ClickAdd 1; Wait 1000; ClickDelete 1 false]))
    = [].
Proof.
  assert (W : timeMovesOn [TypeTitle "Write report"; ClickAdd 1; Wait 1000;
                           ClickDelete 1 false]).
  { intros dt [H | [H | [H | [H | []]]]]; try discriminate H. injection H as H. lia. }
  assert (L : 3000 <= 3000) by lia.
  split; [exact W |]. split; [exact L |].
  apply (message_is_gone_after_three_seconds [] "2024-06-10" _ 3000 W L).
Defined.

(* ------------------------------------------------------------------ *)
(** ** The effect along a session *)




Lemma load_inSync (s : State) (ls : Storage) :
  inSync s ls -> load ls = Ok (tasksValue (tasks s)).
Proof.
  intros [[Hd _] Hi]. unfold load, getItem. rewrite Hd. cbn [bind]. rewrite Hi.
  unfold truthy. rewrite JSON_stringify_truthy. cbn [negb].
  rewrite JSON_roundtrip. reflexivity.
Qed.

Lemma accepting_storing (text : option string) : accepting (storing text).
Proof. split; [reflexivity | intros key value; reflexivity]. Qed.

Lemma loads_stored_list (collection : list Task.t) :
  loads (storing (Some (JSON_stringify collection))) collection.
Proof.
  apply (load_inSync (mount collection EmptyString)).
  split; [apply accepting_storing | reflexivity].
Qed.



(** [asTasks] takes nothing else for a list of tasks. *)
Lemma asTask_only_taskValue (v : JSValue) (task : Task.t) :
  asTask v = Some task -> v = taskValue task.
Proof.
  unfold asTask. intro H.
  repeat match type of H with
         | match ?x with _ => _ end = _ => is_var x; destruct x; try discriminate H
         end.
  match type of H with
  | (if ?c then _ else _) = _ => destruct c eqn:C; [| discriminate H]
  end.
  injection H as <-.
  repeat (apply andb_true_iff in C; destruct C as [C ?]).
  repeat match goal with
         | E : String.eqb _ _ = true |- _ => apply String.eqb_eq in E; subst
         end.
  reflexivity.
Qed.

Lemma asTasks_only_tasksValue (elements : list JSValue) (collection : list Task.t) :
  asTasks elements = Some collection -> JArr elements = tasksValue collection.
Proof.
  unfold tasksValue. revert collection.
  induction elements as [| v rest IH]; intros collection H; cbn [asTasks] in H.
  - injection H as <-. reflexivity.
  - destruct (asTask v) as [task |] eqn:Ev; [| discriminate H].
    destruct (asTasks rest) as [l |] eqn:Er; [| discriminate H].
    injection H as <-. apply asTask_only_taskValue in Ev. subst v.
    specialize (IH l eq_refl). injection IH as IH. rewrite IH. reflexivity.
Qed.


(** The slot is empty at the first visit, and holds what the effect
    wrote at the later ones.  Stored [null] is JSON and no list: the
    initialiser returns it and the first render throws. *)
Example visit_samples :
  loads (storing None) [] /\
  loads (storing (Some (JSON_stringify sampleTasks))) sampleTasks /\
  load (storing (Some "null")) = Ok JNull /\
  visit (storing (Some "null")) "2024-06-10" [ClickToggle 1] = RenderThrows /\
  visit (storing (Some (jsonText "{'id':1}"))) "2024-06-10" [] = RenderThrows /\
  visit (storing (Some "[1,2]")) "2024-06-10" [] = NotFollowed.
Proof.
  split; [reflexivity |]. split; [apply loads_stored_list |].
  repeat split; vm_compute; reflexivity.
Qed.



(** X18. Storage that may not be used: the initialiser catches the
    throw of [getItem] and starts from the empty list, but the effect
    that follows the first render calls [setItem] unguarded, and the
    session ends there with the [SecurityError]. *)
Theorem session_throws_without_storage
        (ls : Storage) (today : string) (es : list Event) :
  denied ls = true ->
  load ls = Ok (tasksValue []) /\
  session ls [] today es = Throw SecurityError.
Proof.
  intro Hd. split.
  - unfold load, getItem. rewrite Hd. reflexivity.
  - unfold session, mounted, save, setItem. rewrite Hd. reflexivity.
Qed.

Lemma session_throws_without_storage_witness :
  denied (mkStorage true (fun _ _ => false) (fun _ => None)) = true /\
  load (mkStorage true (fun _ _ => false) (fun _ => None)) = Ok (tasksValue []) /\
  session (mkStorage true (fun _ _ => false) (fun _ => None)) [] "2024-06-10"
          [TypeTitle "Write report"; ClickAdd 1]
    = Throw SecurityError.
Proof.
  split; [reflexivity |].
  apply (session_throws_without_storage
           (mkStorage true (fun _ _ => false) (fun _ => None)) "2024-06-10"
           [TypeTitle "Write report"; ClickAdd 1] eq_refl).
Defined.

(* ------------------------------------------------------------------ *)
(** ** The stored text determines the list *)

Lemma taskValue_inj (t1 t2 : Task.t) : taskValue t1 = taskValue t2 -> t1 = t2.
Proof.
  destruct t1 as [i1 n1 d1 b1], t2 as [i2 n2 d2 b2]. unfold taskValue. cbn.
  intro H. injection H as Hi Hn Hd Hb. subst. reflexivity.
Qed.

Lemma map_injective {A B : Type} (f : A -> B) (l l' : list A) :
  (forall x y, f x = f y -> x = y) -> map f l = map f l' -> l = l'.
Proof.
  intro Hf. revert l'. induction l as [| x l IH]; intros [| y l'] H; try discriminate H.
  - reflexivity.
  - cbn [map] in H. injection H as Hx Hl. rewrite (Hf x y Hx), (IH l' Hl). reflexivity.
Qed.

Lemma tasksValue_inj (c1 c2 : list Task.t) : tasksValue c1 = tasksValue c2 -> c1 = c2.
Proof.
  unfold tasksValue. intro H. injection H as H.
  apply (map_injective taskValue); [exact taskValue_inj | exact H].
Qed.

(** X19. [JSON.stringify] loses nothing of a list of tasks: two lists
    with the same text are the same list, and the text is never one that
    the initialiser would take for an empty slot. *)
Theorem JSON_stringify_loses_nothing (c1 c2 : list Task.t) :
  (JSON_stringify c1 = JSON_stringify c2 <-> c1 = c2) /\
  truthy (Some (JSON_stringify c1)) = true.
Proof.
  split; [split |].
  - intro H. apply tasksValue_inj.
    pose proof (JSON_roundtrip c1) as R1. rewrite H, JSON_roundtrip in R1.
    congruence.
  - intros ->. reflexivity.
  - unfold truthy. rewrite JSON_stringify_truthy. reflexivity.
Qed.
